(** * app_review_monitor: the review deduplication and delivery pipeline

    A shallow embedding of [app_review_monitor/core.py] (fetch, seen-set
    store, dedup pipeline, Slack notifier, [format_review_message] and
    [main]), of [truncate_string] and [sanitize_string] from
    [app_review_monitor/utils.py] and of the run controller of
    [app_review_monitor/cli.py], followed by the properties of the
    specification that can be settled on it.

    Python values are modelled as follows.
    - [str] is a list of Unicode code points, so [length] is Python's [len].
    - A review is a [dict] whose keys may be absent: a record of options.
      The values that come from the attributes of the API response are JSON
      values of any type ([value]); nothing in the code checks them. The
      response itself has the shape of the API's documents: [data] is an
      array of objects whose [id] is a string and whose [attributes] is an
      object.
    - Exceptions are a class (with Python's subclass order) and a message.
    - Code that raises, mutates the state file, logs or talks to the network
      lives in the monad [M]: it reads an environment [env], threads the
      mutable [state] and emits a chronological list of [event]s. *)

From Stdlib Require Import ZArith String Ascii List.
From stdpp Require Import base decidable option list gmap sets pretty.

Local Open Scope Z_scope.

(* ===================================================================== *)
(** ** Python strings *)
(* ===================================================================== *)

Abbreviation str := (list N).

(** A source literal (ASCII) as a Python string. *)
Definition lit (s : string) : str := map N_of_ascii (list_ascii_of_string s).

(** U+2B50, the star glyph of the rating line. *)
Definition STAR : N := 0x2B50%N.

(** [str(n)] for an integer. *)
Definition str_of_Z (n : Z) : str := lit (pretty n).

(** [s.replace(old, new)] for a one-character [old]. *)
Definition replace_char (old : N) (new : str) (s : str) : str :=
  flat_map (fun c => if N.eqb c old then new else [c]) s.

(** [text[:n]] for a possibly negative bound [n]. *)
Definition slice_to (n : Z) (text : str) : str :=
  if 0 <=? n then take (Z.to_nat n) text
  else take (Z.to_nat (Z.of_nat (length text) + n)) text.

(** [s.endswith(suffix)]. *)
Definition endswith (s suffix : str) : bool :=
  bool_decide (drop (length s - length suffix)%nat s = suffix).

(* ===================================================================== *)
(** ** utils.py *)
(* ===================================================================== *)

Definition truncate_string (text : str) (max_length : Z) : str :=
  match text with
  | [] => []
  | _ =>
      if Z.of_nat (length text) <=? max_length then text
      else slice_to (max_length - 3) text ++ lit "..."
  end.

(* ===================================================================== *)
(** ** Exceptions *)
(* ===================================================================== *)

Inductive exn_class :=
  | Exception
  | AppReviewMonitorError | APIError | SlackError | ConfigurationError
  | OSError | PermissionError | IsADirectoryError | RequestException
  | ValueError | JSONDecodeError | UnicodeError | UnicodeDecodeError
  | LookupError | KeyError
  | TypeError | AttributeError
  | ArithmeticError | OverflowError
  | RuntimeError | RecursionError
  | MemoryError.

Global Instance exn_class_eq_dec : EqDecision exn_class.
Proof. solve_decision. Defined.

(** The direct base class; [Exception] is the root. *)
Definition base_class (c : exn_class) : exn_class :=
  match c with
  | Exception => Exception
  | AppReviewMonitorError => Exception
  | APIError | SlackError | ConfigurationError => AppReviewMonitorError
  | OSError => Exception
  | PermissionError | IsADirectoryError | RequestException => OSError
  | ValueError => Exception
  | JSONDecodeError | UnicodeError => ValueError
  | UnicodeDecodeError => UnicodeError
  | LookupError => Exception
  | KeyError => LookupError
  | TypeError | AttributeError | ArithmeticError | RuntimeError | MemoryError => Exception
  | OverflowError => ArithmeticError
  | RecursionError => RuntimeError
  end.

(** [issubclass(c, d)], by the class [d] of the [except] clause. *)
Definition issubclass (c d : exn_class) : bool :=
  match d with
  | Exception => true
  | AppReviewMonitorError =>
      match c with
      | AppReviewMonitorError | APIError | SlackError | ConfigurationError => true
      | _ => false
      end
  | APIError => match c with APIError => true | _ => false end
  | SlackError => match c with SlackError => true | _ => false end
  | ConfigurationError => match c with ConfigurationError => true | _ => false end
  | OSError =>
      match c with
      | OSError | PermissionError | IsADirectoryError | RequestException => true
      | _ => false
      end
  | PermissionError => match c with PermissionError => true | _ => false end
  | IsADirectoryError => match c with IsADirectoryError => true | _ => false end
  | RequestException => match c with RequestException => true | _ => false end
  | ValueError =>
      match c with
      | ValueError | JSONDecodeError | UnicodeError | UnicodeDecodeError => true
      | _ => false
      end
  | JSONDecodeError => match c with JSONDecodeError => true | _ => false end
  | UnicodeError => match c with UnicodeError | UnicodeDecodeError => true | _ => false end
  | UnicodeDecodeError => match c with UnicodeDecodeError => true | _ => false end
  | LookupError => match c with LookupError | KeyError => true | _ => false end
  | KeyError => match c with KeyError => true | _ => false end
  | TypeError => match c with TypeError => true | _ => false end
  | AttributeError => match c with AttributeError => true | _ => false end
  | ArithmeticError => match c with ArithmeticError | OverflowError => true | _ => false end
  | OverflowError => match c with OverflowError => true | _ => false end
  | RuntimeError => match c with RuntimeError | RecursionError => true | _ => false end
  | RecursionError => match c with RecursionError => true | _ => false end
  | MemoryError => match c with MemoryError => true | _ => false end
  end.

Record exn := Exn { exn_cls : exn_class; exn_msg : str }.

Global Instance exn_eq_dec : EqDecision exn.
Proof. solve_decision. Defined.

(* ===================================================================== *)
(** ** Data *)
(* ===================================================================== *)

(** A decoded JSON value, as far as the code looks at it: a string, an
    integer, a boolean, null, or a float, an array or an object. The last
    three are only ever formatted, and are given by their [str()]. *)
Inductive value :=
  | VStr (s : str)
  | VInt (n : Z)
  | VBool (b : bool)
  | VNull
  | VFloat (text : str)
  | VList (text : str)
  | VDict (text : str).

Global Instance value_eq_dec : EqDecision value.
Proof. solve_decision. Defined.

(** [type(v).__name__]. *)
Definition type_name (v : value) : str :=
  match v with
  | VStr _ => lit "str"
  | VInt _ => lit "int"
  | VBool _ => lit "bool"
  | VNull => lit "NoneType"
  | VFloat _ => lit "float"
  | VList _ => lit "list"
  | VDict _ => lit "dict"
  end.

(** [f"{v}"], which is [str(v)]. *)
Definition format_value (v : value) : str :=
  match v with
  | VStr s => s
  | VInt n => str_of_Z n
  | VBool b => if b then lit "True" else lit "False"
  | VNull => lit "None"
  | VFloat text | VList text | VDict text => text
  end.

(** A review dictionary as built by [get_recent_reviews] and read by
    [process_reviews] and [send_slack_notification]. [None] is an absent
    key; a present key holds whatever the response held, null included. *)
Record review := Review {
  review_id : option str;
  rating : option value;
  title : option value;
  body : option value;
  author : option value;
  territory : option value;
  date : option value
}.

Global Instance review_eq_dec : EqDecision review.
Proof. solve_decision. Defined.

(** The [attributes] object of a customerReviews resource: each key is
    absent or holds a JSON value. *)
Record attributes := Attributes {
  a_rating : option value;
  a_title : option value;
  a_body : option value;
  a_reviewerNickname : option value;
  a_territory : option value;
  a_createdDate : option value
}.

(** One element of the response's [data] array. *)
Record item := Item {
  item_id : option str;
  item_attributes : option attributes
}.

(** The decoded body of the API response. [other_keys] tells whether the
    object has keys besides [data]; [JNull] is the body [null], which
    decodes to [None]; [JOther b] is any other JSON value that is not an
    object, with its Python truth value [b]. *)
Inductive api_json :=
  | JObject (data : option (list item)) (other_keys : bool)
  | JNull
  | JOther (truth : bool).

Definition truthy (j : api_json) : bool :=
  match j with
  | JObject d o => bool_decide (is_Some d) || o
  | JNull => false
  | JOther b => b
  end.

(** What the request to the API does: building the client or its token
    raises (no request is made), [requests.get] raises, or it answers with a
    status and a body that decodes as JSON or does not. *)
Inductive get_outcome :=
  | ClientRaises (msg : str)
  | GetRaises (msg : str)
  | GetReply (status_code : Z) (text : str) (json : option api_json).

(** What [requests.post] does. *)
Inductive post_outcome :=
  | PostRaises (msg : str)
  | PostReply (status_code : Z) (text : str).

(** What [datetime.fromisoformat] makes of a string: [ValueError], a naive
    datetime, or an aware one (microseconds since the epoch, UTC). *)
Inductive iso_result :=
  | IsoInvalid
  | IsoNaive (t : Z)
  | IsoAware (t : Z).

(** The seen set as [load_processed_reviews] returns it. *)
Record processed := Processed {
  review_ids : list str;
  last_run : option str
}.

Global Instance processed_eq_dec : EqDecision processed.
Proof. solve_decision. Defined.

(** The state file. [Garbage] is text that [json.load] rejects with
    [JSONDecodeError], the empty file and a file cut off in the middle of a
    write among them; [Undecodable] is bytes that are not text in the
    encoding of [open], on which reading raises [UnicodeDecodeError];
    [TooDeep] is text nested so deeply that the decoder raises
    [RecursionError]; [Unloadable e] is any other content on which reading
    or decoding raises, with the exception [e] it raises (the [ValueError]
    of an integer literal longer than the interpreter converts, say);
    [JsonObject ids lr] is an object whose [review_ids] key is absent
    ([None]) or a list, and whose [last_run] is a string or is absent or
    null ([None]: [data.get('last_run', None)] does not tell these apart);
    [JsonOther] is valid JSON that is not an object. *)
Inductive contents :=
  | Garbage
  | Undecodable
  | TooDeep
  | Unloadable (e : exn)
  | JsonObject (ids : option (list str)) (lr : option str)
  | JsonOther.

Global Instance contents_eq_dec : EqDecision contents.
Proof. solve_decision. Defined.

(** Why the file cannot be opened or read: the permissions, a directory at
    the path, or any other error of the operating system, with its text. *)
Inductive open_error :=
  | PermissionDenied
  | IsADirectory
  | IOFailure (msg : str).

Global Instance open_error_eq_dec : EqDecision open_error.
Proof. solve_decision. Defined.

(** The [OSError] that [open] raises. *)
Definition open_exn (err : open_error) : exn :=
  match err with
  | PermissionDenied => Exn PermissionError (lit "[Errno 13] Permission denied")
  | IsADirectory => Exn IsADirectoryError (lit "[Errno 21] Is a directory")
  | IOFailure msg => Exn OSError msg
  end.

(** What writing the state file does: [open(path, "w")] fails and the file
    is untouched; or the file is opened, which empties it, and the write or
    the close fails with the text [msg], leaving [remains] in the file; or all
    is written. *)
Inductive write_outcome :=
  | OpenFails (err : open_error)
  | WriteFails (msg : str) (remains : contents)
  | WriteOk.

Global Instance write_outcome_eq_dec : EqDecision write_outcome.
Proof. solve_decision. Defined.

(* ===================================================================== *)
(** ** Environment, state and events *)
(* ===================================================================== *)

Record env := Env {
  KEY_ID : option str;
  PRIVATE_KEY : option str;
  ISSUER_ID : option str;
  (** [datetime.now(pytz.UTC)], microseconds since the epoch *)
  now_utc : Z;
  (** [datetime.now().isoformat()] *)
  now_isoformat : str;
  fromisoformat : str -> iso_result;
  api_reply : get_outcome;
  (** how long a string the interpreter has the memory to build *)
  str_capacity : Z;
  (** the error of [open(path, 'r')] or of reading, if it fails *)
  open_read : option open_error;
  (** what [open(path, 'w')] and [json.dump] do *)
  write_reply : write_outcome;
  (** the answer to the n-th [requests.post] of the run, from 0 *)
  webhook_reply : nat -> post_outcome
}.

(** The state file can be opened for reading; it can be opened for writing
    and written in full. *)
Definition can_read (E : env) : bool := bool_decide (open_read E = None).
Definition can_write (E : env) : bool := bool_decide (write_reply E = WriteOk).

Record state := State {
  (** the state file; [None] when it does not exist *)
  file : option contents;
  (** how many [requests.post] calls were made so far *)
  posted : nat
}.

Global Instance state_eq_dec : EqDecision state.
Proof. solve_decision. Defined.

Inductive level := DEBUG | INFO | WARNING | ERROR.

Inductive event :=
  | Log (lvl : level) (msg : str)
  | HttpGet (url : str)
  | HttpPost (url text channel : str)
  | StoreLoad
  | StoreSave (ids : list str) (lr : option str).

Global Instance level_eq_dec : EqDecision level.
Proof. solve_decision. Defined.
Global Instance event_eq_dec : EqDecision event.
Proof. solve_decision. Defined.

Definition is_store (e : event) : bool :=
  match e with StoreLoad | StoreSave _ _ => true | _ => false end.
Definition is_save (e : event) : bool :=
  match e with StoreSave _ _ => true | _ => false end.
Definition is_post (e : event) : bool :=
  match e with HttpPost _ _ _ => true | _ => false end.

(* ===================================================================== *)
(** ** The monad *)
(* ===================================================================== *)

Inductive result (A : Type) :=
  | Return (a : A)
  | Raise (e : exn).
Arguments Return {A} a.
Arguments Raise {A} e.

(** What a run leaves behind: its result, the final state and the events it
    emitted, oldest first. *)
Record outcome (A : Type) := Outcome {
  res : result A;
  final : state;
  trace : list event
}.
Arguments Outcome {A} res final trace.
Arguments res {A} o.
Arguments final {A} o.
Arguments trace {A} o.

Definition M (A : Type) : Type := env -> state -> outcome A.

Definition ret {A} (a : A) : M A := fun _ s => Outcome (Return a) s [].

Definition raise {A} (c : exn_class) (msg : str) : M A :=
  fun _ s => Outcome (Raise (Exn c msg)) s [].

Definition reraise {A} (e : exn) : M A := fun _ s => Outcome (Raise e) s [].

(** An expression that has a value or raises, and does nothing else. *)
Definition lift {A} (r : result A) : M A := fun _ s => Outcome r s [].

Definition bind {A B} (m : M A) (k : A -> M B) : M B :=
  fun E s =>
    match m E s with
    | Outcome (Return a) s1 t1 =>
        match k a E s1 with Outcome r s2 t2 => Outcome r s2 (t1 ++ t2) end
    | Outcome (Raise e) s1 t1 => Outcome (Raise e) s1 t1
    end.

Global Instance M_ret : MRet M := @ret.
Global Instance M_bind : MBind M := fun A B k m => bind m k.

(** An [except] clause list: the handler of the first clause that matches. *)
Definition handler (A : Type) : Type := exn -> option (M A).

Definition except {A} (c : exn_class) (h : exn -> M A) : handler A :=
  fun e => if issubclass (exn_cls e) c then Some (h e) else None.

Definition orelse {A} (h1 h2 : handler A) : handler A :=
  fun e => match h1 e with Some m => Some m | None => h2 e end.

Definition try {A} (m : M A) (h : handler A) : M A :=
  fun E s =>
    match m E s with
    | Outcome (Return a) s1 t1 => Outcome (Return a) s1 t1
    | Outcome (Raise e) s1 t1 =>
        match h e with
        | Some k => match k E s1 with Outcome r s2 t2 => Outcome r s2 (t1 ++ t2) end
        | None => Outcome (Raise e) s1 t1
        end
    end.

Definition ask {A} (f : env -> A) : M A := fun E s => Outcome (Return (f E)) s [].
Definition get_file : M (option contents) := fun _ s => Outcome (Return (file s)) s [].
Definition put_file (c : contents) : M unit :=
  fun _ s => Outcome (Return tt) (State (Some c) (posted s)) [].
Definition emit (e : event) : M unit := fun _ s => Outcome (Return tt) s [e].
Definition log (lvl : level) (msg : str) : M unit := emit (Log lvl msg).

(* ===================================================================== *)
(** ** core.py: the review source client *)
(* ===================================================================== *)

Definition NL : str := [10%N].

(** [d[key]]: [KeyError] on an absent key. *)
Definition getitem {A} (key : string) (field : option A) : M A :=
  match field with
  | Some v => ret v
  | None => raise KeyError (lit "'" ++ lit key ++ lit "'")
  end.

(** [all([a, b, c])] on values of [os.getenv]: each is set and not empty. *)
Definition all_set (l : list (option str)) : bool :=
  forallb (fun o => match o with Some (_ :: _) => true | _ => false end) l.

Definition params_repr : str :=
  lit "{'fields[customerReviews]': 'rating,title,body,reviewerNickname,territory,createdDate', 'sort': '-createdDate', 'limit': 100}".

(** [Api(...)] and [api.token] are evaluated inside the [try], before the
    request: when they raise ([ClientRaises], an exception of whatever
    class) nothing is sent. [response.json()] of the body [null] is [None],
    which is also what the function returns on a failure. *)
Definition make_api_request (endpoint : str) : M (option api_json) :=
  try
    (let base_url := lit "https://api.appstoreconnect.apple.com" in
     let url := base_url ++ lit "/" ++ endpoint in
     let request : M unit :=
       log DEBUG (lit "Making request to " ++ url ++ lit " with params " ++ params_repr);;
       emit (HttpGet url) in
     reply ← ask api_reply;
     match reply with
     | ClientRaises msg => raise Exception msg
     | GetRaises msg => request;; raise RequestException msg
     | GetReply status_code text json =>
         request;;
         if bool_decide (status_code ≠ 200) then
           log ERROR (lit "API request failed with status " ++ str_of_Z status_code);;
           log ERROR (lit "Response body: " ++ text);;
           ret None
         else
           match json with
           | Some JNull => ret None
           | Some j => ret (Some j)
           | None => raise JSONDecodeError (lit "Expecting value")
           end
     end)
    (except Exception (fun e =>
       log ERROR (lit "Error making API request: " ++ exn_msg e);;
       ret None)).

(** [timedelta(days=days)], in microseconds. *)
Definition timedelta_days (days : Z) : M Z :=
  if bool_decide (Z.abs days ≤ 999999999) then ret (days * 86400000000)
  else raise OverflowError (lit "days=" ++ str_of_Z days ++ lit "; must have magnitude <= 999999999").

(** [datetime.min] and [datetime.max] in UTC, microseconds since the epoch. *)
Definition datetime_min : Z := -62135596800000000.
Definition datetime_max : Z := 253402300799999999.

(** [d - delta] on an aware datetime. *)
Definition datetime_sub (d delta : Z) : M Z :=
  if bool_decide (datetime_min ≤ d - delta ≤ datetime_max) then ret (d - delta)
  else raise OverflowError (lit "date value out of range").

(** The body of the extraction loop: an item without [attributes] is
    skipped. [attrs.get(key, default)] gives the default for an absent key
    only: a value that is present, null or of any type, is copied as it is. *)
Definition review_of_item (it : item) : option review :=
  match item_attributes it with
  | Some attrs =>
      Some {| review_id := Some (default [] (item_id it));
              rating := Some (default (VInt 0) (a_rating attrs));
              title := Some (default (VStr (lit "No title")) (a_title attrs));
              body := Some (default (VStr (lit "No review text")) (a_body attrs));
              author := Some (default (VStr (lit "Anonymous")) (a_reviewerNickname attrs));
              territory := Some (default (VStr (lit "Unknown")) (a_territory attrs));
              date := Some (default (VStr []) (a_createdDate attrs)) |}
  | None => None
  end.

(** [v.replace(old, new)]: only a string has the method. *)
Definition replace_method (v : value) (old : N) (new : str) : result str :=
  match v with
  | VStr s => Return (replace_char old new s)
  | _ => Raise (Exn AttributeError
                  (lit "'" ++ type_name v ++ lit "' object has no attribute 'replace'"))
  end.

(** The date filter loop; [filtered_reviews] is the list built so far. *)
Fixpoint filter_by_date (start_date end_date : Z)
    (reviews filtered_reviews : list review) : M (list review) :=
  match reviews with
  | [] => ret filtered_reviews
  | review :: rest =>
      filtered_reviews ←
        try
          (d ← getitem "date" (date review);
           d ← lift (replace_method d 90%N (lit "+00:00"));
           parse ← ask fromisoformat;
           match parse d with
           | IsoInvalid => raise ValueError (lit "Invalid isoformat string")
           | IsoNaive _ =>
               raise TypeError (lit "can't compare offset-naive and offset-aware datetimes")
           | IsoAware created_date =>
               if bool_decide (start_date ≤ created_date ≤ end_date)
               then ret (filtered_reviews ++ [review])
               else ret filtered_reviews
           end)
          (orelse (except KeyError (fun _ => ret filtered_reviews))
                  (except ValueError (fun _ => ret filtered_reviews)));
      filter_by_date start_date end_date rest filtered_reviews
  end.

Definition get_recent_reviews (app_id : str) (days : Z) : M (list review) :=
  try
    (end_date ← ask now_utc;
     delta ← timedelta_days days;
     start_date ← datetime_sub end_date delta;
     log INFO (lit "Fetching reviews");;
     key_id ← ask KEY_ID;
     private_key ← ask PRIVATE_KEY;
     issuer_id ← ask ISSUER_ID;
     if negb (all_set [key_id; private_key; issuer_id]) then
       raise APIError (lit "Missing required API credentials")
     else
       let endpoint := lit "v1/apps/" ++ app_id ++ lit "/customerReviews" in
       response ← make_api_request endpoint;
       if negb (from_option truthy false response) then
         raise APIError (lit "Failed to fetch reviews from App Store Connect API")
       else
         match response with
         | Some (JObject (Some data) _) =>
             let reviews := omap review_of_item data in
             filtered_reviews ← filter_by_date start_date end_date reviews [];
             log INFO (lit "Successfully fetched "
                       ++ str_of_Z (Z.of_nat (length filtered_reviews)) ++ lit " reviews");;
             ret filtered_reviews
         | _ => raise APIError (lit "Invalid response format from App Store Connect API")
         end)
    (orelse (except APIError reraise)
            (except Exception (fun e =>
               raise APIError (lit "Error fetching reviews: " ++ exn_msg e)))).

(* ===================================================================== *)
(** ** core.py: the seen-set store *)
(* ===================================================================== *)

Definition load_processed_reviews : M processed :=
  emit StoreLoad;;
  f ← get_file;
  match f with
  | Some c =>
      try
        (opened ← ask open_read;
         match opened with
         | Some err => reraise (open_exn err)
         | None =>
             match c with
             | Garbage => raise JSONDecodeError (lit "Expecting value")
             | Undecodable =>
                 raise UnicodeDecodeError (lit "'utf-8' codec can't decode byte")
             | TooDeep =>
                 raise RecursionError (lit "maximum recursion depth exceeded")
             | Unloadable e => reraise e
             | JsonOther => raise AttributeError (lit "object has no attribute 'get'")
             | JsonObject ids lr =>
                 ret {| review_ids := default [] ids; last_run := lr |}
             end
         end)
        (except JSONDecodeError (fun _ =>
           log WARNING (lit "Error reading processed reviews file, starting fresh");;
           ret {| review_ids := []; last_run := None |}))
  | None => ret {| review_ids := []; last_run := None |}
  end.

(** [IOError] is [OSError]. [open(path, "w")] empties the file before
    anything is written: a write that fails leaves what was written until
    then, the beginning of the text at most. *)
Definition save_processed_reviews (review_ids : list str) (last_run : option str) : M unit :=
  emit (StoreSave review_ids last_run);;
  try
    (written ← ask write_reply;
     match written with
     | OpenFails err => reraise (open_exn err)
     | WriteFails msg remains =>
         put_file remains;;
         raise OSError msg
     | WriteOk => put_file (JsonObject (Some review_ids) last_run)
     end)
    (except OSError (fun e =>
       log ERROR (lit "Error saving processed reviews: " ++ exn_msg e);;
       reraise e)).

(* ===================================================================== *)
(** ** core.py: the notifier *)
(* ===================================================================== *)

(** [sys.maxsize]. *)
Definition maxsize : Z := 9223372036854775807.

(** ["⭐" * n]: an integer (a boolean is one) repeats the star, anything
    else raises [TypeError]. The count must fit an index
    ([OverflowError]), and there must be memory for the string
    ([MemoryError], whose text is empty); a count below 1 gives the empty
    string. [capacity] is the longest string there is memory for. *)
Definition repeat_star (capacity : Z) (n : value) : result str :=
  match n with
  | VInt n =>
      if bool_decide (- maxsize - 1 ≤ n ≤ maxsize) then
        if bool_decide (n ≤ Z.max 0 capacity) then
          Return (concat (replicate (Z.to_nat n) [STAR]))
        else Raise (Exn MemoryError [])
      else Raise (Exn OverflowError (lit "cannot fit 'int' into an index-sized integer"))
  | VBool b => Return (if b then [STAR] else [])
  | _ => Raise (Exn TypeError
                  (lit "can't multiply sequence by non-int of type '"
                   ++ type_name n ++ lit "'"))
  end.

(** The [text] of the message built for one review, given its star line. *)
Definition message_lines (rating : str) (review : review) : str :=
  lit "*New App Store Review*" ++ NL
  ++ lit "Rating: " ++ rating ++ NL
  ++ lit "Title: " ++ format_value (default (VStr (lit "No title")) (title review)) ++ NL
  ++ lit "Review: "
  ++ format_value (default (VStr (lit "No review text")) (body review)) ++ NL
  ++ lit "Reviewer: " ++ format_value (default (VStr (lit "Anonymous")) (author review)) ++ NL
  ++ lit "Territory: "
  ++ format_value (default (VStr (lit "Unknown")) (territory review)) ++ NL
  ++ lit "Date: " ++ format_value (default (VStr (lit "Unknown")) (date review)).

(** [requests.post(webhook_url, json=payload)]. *)
Definition post (webhook_url text channel : str) : M post_outcome :=
  fun E s =>
    Outcome (Return (webhook_reply E (posted s)))
            (State (file s) (S (posted s)))
            [HttpPost webhook_url text channel].

(** The delivery loop of [send_slack_notification]. *)
Fixpoint send_loop (webhook_url channel : str) (reviews : list review) : M unit :=
  match reviews with
  | [] => ret tt
  | review :: rest =>
      capacity ← ask str_capacity;
      rating ← lift (repeat_star capacity (default (VInt 0) (rating review)));
      let text := message_lines rating review in
      response ← post webhook_url text channel;
      match response with
      | PostRaises msg => raise RequestException msg
      | PostReply status_code error_msg =>
          if bool_decide (status_code ≠ 200) then
            raise SlackError (lit "Failed to send notification: " ++ error_msg)
          else
            log INFO (lit "Successfully sent notification for review");;
            send_loop webhook_url channel rest
      end
  end.

Definition send_slack_notification (webhook_url : str) (reviews : list review)
    (channel : str) : M unit :=
  match reviews with
  | [] => log INFO (lit "No new reviews to send")
  | _ =>
      try (send_loop webhook_url channel reviews)
          (orelse (except SlackError reraise)
                  (except Exception (fun e =>
                     raise SlackError (lit "Error sending notification: " ++ exn_msg e))))
  end.

(* ===================================================================== *)
(** ** core.py: the dedup pipeline *)
(* ===================================================================== *)

(** The loop that filters out already processed reviews; [new_reviews] and
    [processed_review_ids] are the list and the set built so far. *)
Fixpoint filter_processed (reviews new_reviews : list review)
    (processed_review_ids : gset str) : M (list review * gset str) :=
  match reviews with
  | [] => ret (new_reviews, processed_review_ids)
  | review :: rest =>
      i ← getitem "id" (review_id review);
      if bool_decide (i ∉ processed_review_ids) then
        log DEBUG (lit "New review found: " ++ i);;
        filter_processed rest (new_reviews ++ [review]) (processed_review_ids ∪ {[i]})
      else
        log DEBUG (lit "Skipping already processed review: " ++ i);;
        filter_processed rest new_reviews processed_review_ids
  end.

Definition process_reviews (app_id : str) (days : Z) : M (list review) :=
  try
    (reviews ← get_recent_reviews app_id days;
     match reviews with
     | [] => log INFO (lit "No new reviews found");; ret []
     | _ =>
         processed_data ← load_processed_reviews;
         let processed_review_ids : gset str := list_to_set (review_ids processed_data) in
         log INFO (lit "Found " ++ str_of_Z (Z.of_nat (length reviews))
                   ++ lit " reviews, checking for new ones...");;
         log DEBUG (lit "Previously processed reviews: "
                    ++ str_of_Z (Z.of_nat (size processed_review_ids)));;
         '(new_reviews, processed_review_ids) ←
           filter_processed reviews [] processed_review_ids;
         match new_reviews with
         | _ :: _ =>
             stamp ← ask now_isoformat;
             save_processed_reviews (elements processed_review_ids) (Some stamp);;
             log INFO (lit "Found " ++ str_of_Z (Z.of_nat (length new_reviews))
                       ++ lit " new reviews")
         | [] => log INFO (lit "No new reviews to process")
         end;;
         ret new_reviews
     end)
    (except Exception (fun e =>
       log ERROR (lit "Error processing reviews: " ++ exn_msg e);;
       ret [])).

(* ===================================================================== *)
(** ** Vocabulary of the properties *)
(* ===================================================================== *)

(** The lower end of the lookback window, [end_date - timedelta(days)]. *)
Definition window_start (E : env) (days : Z) : Z := now_utc E - days * 86400000000.

(** The date filter keeps [r]: its date parses to an aware datetime inside
    the window. *)
Definition keeps (E : env) (start_date end_date : Z) (r : review) : bool :=
  match date r with
  | Some (VStr d) =>
      match fromisoformat E (replace_char 90%N (lit "+00:00") d) with
      | IsoAware t => bool_decide (start_date ≤ t ≤ end_date)
      | _ => false
      end
  | _ => false
  end.

(** The date of [r] parses to a naive datetime. *)
Definition naive (E : env) (r : review) : bool :=
  match date r with
  | Some (VStr d) =>
      match fromisoformat E (replace_char 90%N (lit "+00:00") d) with
      | IsoNaive _ => true
      | _ => false
      end
  | _ => false
  end.

(** The date of [r] is absent or a string: the date filter can read it. *)
Definition date_is_str (r : review) : bool :=
  match date r with
  | Some (VStr _) | None => true
  | _ => false
  end.

(** What the date filter raises at [r], if it does: [AttributeError] on a
    date that is not a string, [TypeError] on one that parses to a naive
    datetime. *)
Definition date_error (E : env) (r : review) : option exn :=
  match date r with
  | Some (VStr d) =>
      match fromisoformat E (replace_char 90%N (lit "+00:00") d) with
      | IsoNaive _ =>
          Some (Exn TypeError (lit "can't compare offset-naive and offset-aware datetimes"))
      | _ => None
      end
  | Some v =>
      Some (Exn AttributeError
              (lit "'" ++ type_name v ++ lit "' object has no attribute 'replace'"))
  | None => None
  end.

(** The exception of the first review at which the date filter raises. *)
Definition first_date_error (E : env) (reviews : list review) : option exn :=
  head (omap (date_error E) reviews).

(** The star line of [r] can be built: its rating is absent, a boolean, or
    an integer that fits an index and asks for no more stars than there is
    memory for. *)
Definition has_star_line (E : env) (r : review) : bool :=
  match default (VInt 0) (rating r) with
  | VInt n => bool_decide (- maxsize - 1 ≤ n ≤ maxsize ∧ n ≤ Z.max 0 (str_capacity E))
  | VBool _ => true
  | _ => false
  end.

(** [isinstance(v, int)]. *)
Definition is_int (v : value) : bool :=
  match v with VInt _ | VBool _ => true | _ => false end.

(** The classes of the exceptions that building a star line raises. *)
Definition star_error (c : exn_class) : bool :=
  match c with TypeError | OverflowError | MemoryError => true | _ => false end.

(** The stars of a rating; none where the star line cannot be built. *)
Definition stars (rating : value) : str :=
  match rating with
  | VInt n => concat (replicate (Z.to_nat n) [STAR])
  | VBool b => if b then [STAR] else []
  | _ => []
  end.

(** The text of the message for [r]. *)
Definition message_text (r : review) : str :=
  message_lines (stars (default (VInt 0) (rating r))) r.



(** The reviews whose id is not in [seen], first occurrence of each id only,
    in the order of [reviews]. *)
Fixpoint fresh (seen : gset str) (reviews : list review) : list review :=
  match reviews with
  | [] => []
  | r :: rest =>
      match review_id r with
      | Some i =>
          if bool_decide (i ∈ seen) then fresh seen rest
          else r :: fresh (seen ∪ {[i]}) rest
      | None => fresh seen rest
      end
  end.

(** The id of [r] is not in [seen]. *)
Definition unseen (seen : gset str) (r : review) : Prop :=
  match review_id r with Some i => i ∉ seen | None => False end.

Global Instance unseen_dec seen r : Decision (unseen seen r).
Proof. unfold unseen. destruct (review_id r); apply _. Defined.

Definition ids_of (reviews : list review) : gset str :=
  list_to_set (omap review_id reviews).

(** Events that touch neither the store nor the webhook. *)
Definition quiet (e : event) : bool := negb (is_store e || is_post e).

Definition is_log (e : event) : bool :=
  match e with Log _ _ => true | _ => false end.

(** The state a successful save of [ids] leaves behind. *)
Definition saved (E : env) (s : state) (ids : gset str) : state :=
  State (Some (JsonObject (Some (elements ids)) (Some (now_isoformat E)))) (posted s).

(** The state a failed save leaves: untouched when the file could not be
    opened, and what the failed write left otherwise. *)
Definition after_failed_save (E : env) (s : state) : state :=
  match write_reply E with
  | WriteFails _ remains => State (Some remains) (posted s)
  | _ => s
  end.

(** The webhook accepted the message. *)
Definition ok_reply (p : post_outcome) : bool :=
  match p with
  | PostReply status_code _ => bool_decide (status_code = 200)
  | PostRaises _ => false
  end.

(** One delivery call per review, in order. *)
Definition attempts (webhook_url channel : str) (reviews : list review) : list event :=
  map (fun r => HttpPost webhook_url (message_text r) channel) reviews.


(** The same environment with another behaviour of the write of the state
    file. *)
Definition with_write_reply (E : env) (w : write_outcome) : env :=
  {| KEY_ID := KEY_ID E; PRIVATE_KEY := PRIVATE_KEY E; ISSUER_ID := ISSUER_ID E;
     now_utc := now_utc E; now_isoformat := now_isoformat E;
     fromisoformat := fromisoformat E; api_reply := api_reply E;
     str_capacity := str_capacity E;
     open_read := open_read E; write_reply := w;
     webhook_reply := webhook_reply E |}.

(* ===================================================================== *)
(** ** Sample inputs *)
(* ===================================================================== *)

Module Sample.

(** A parser that knows one instant, 2024-01-02T10:00:00 UTC, in its aware
    and its naive spelling. *)
Definition parse (s : str) : iso_result :=
  if bool_decide (s = lit "2024-01-02T10:00:00+00:00") then IsoAware 1704189600000000
  else if bool_decide (s = lit "2024-01-02T10:00:00") then IsoNaive 1704189600000000
  else IsoInvalid.

Definition attrs (stars : Z) (t b : string) : attributes :=
  {| a_rating := Some (VInt stars); a_title := Some (VStr (lit t));
     a_body := Some (VStr (lit b));
     a_reviewerNickname := Some (VStr (lit "amy")); a_territory := Some (VStr (lit "USA"));
     a_createdDate := Some (VStr (lit "2024-01-02T10:00:00Z")) |}.

Definition item1 : item := Item (Some (lit "r1")) (Some (attrs 5 "Great" "Love it")).
Definition item2 : item := Item (Some (lit "r2")) (Some (attrs 1 "Bad" "Crashes")).
(** The id of [item1] again, with other content. *)
Definition item1' : item := Item (Some (lit "r1")) (Some (attrs 4 "Good" "Edited")).

Definition review_of (stars : Z) (i t b : string) : review :=
  {| review_id := Some (lit i); rating := Some (VInt stars); title := Some (VStr (lit t));
     body := Some (VStr (lit b)); author := Some (VStr (lit "amy"));
     territory := Some (VStr (lit "USA"));
     date := Some (VStr (lit "2024-01-02T10:00:00Z")) |}.

Definition r1 : review := review_of 5 "r1" "Great" "Love it".
Definition r2 : review := review_of 1 "r2" "Bad" "Crashes".
Definition r1' : review := review_of 4 "r1" "Good" "Edited".
Definition r3 : review := review_of 3 "r3" "Fine" "Works".

(** A review whose body is 5000 characters long. *)
Definition long_review : review :=
  {| review_id := Some (lit "long"); rating := Some (VInt 5);
     title := Some (VStr (lit "Long"));
     body := Some (VStr (replicate 5000 66%N)); author := Some (VStr (lit "amy"));
     territory := Some (VStr (lit "USA"));
     date := Some (VStr (lit "2024-01-02T10:00:00Z")) |}.

Definition reply (data : list item) : get_outcome :=
  GetReply 200 [] (Some (JObject (Some data) false)).

(** 2024-01-02T12:00:00 UTC, credentials set, a readable and writable state
    file, a webhook that accepts everything. *)
Definition E (data : list item) : env :=
  {| KEY_ID := Some (lit "KEY"); PRIVATE_KEY := Some (lit "PEM");
     ISSUER_ID := Some (lit "ISSUER");
     now_utc := 1704196800000000;
     now_isoformat := lit "2024-01-02T04:00:00.000000";
     fromisoformat := parse;
     api_reply := reply data;
     str_capacity := 1000000;
     open_read := None; write_reply := WriteOk;
     webhook_reply := fun _ => PostReply 200 (lit "ok") |}.

(** The same with the credentials missing. *)
Definition E_no_credentials : env :=
  {| KEY_ID := None; PRIVATE_KEY := None; ISSUER_ID := None;
     now_utc := 1704196800000000;
     now_isoformat := lit "2024-01-02T04:00:00.000000";
     fromisoformat := parse;
     api_reply := reply [item1; item2];
     str_capacity := 1000000;
     open_read := None; write_reply := WriteOk;
     webhook_reply := fun _ => PostReply 200 (lit "ok") |}.

(** The same with a state file that cannot be written. *)
Definition E_read_only (data : list item) : env :=
  {| KEY_ID := Some (lit "KEY"); PRIVATE_KEY := Some (lit "PEM");
     ISSUER_ID := Some (lit "ISSUER");
     now_utc := 1704196800000000;
     now_isoformat := lit "2024-01-02T04:00:00.000000";
     fromisoformat := parse;
     api_reply := reply data;
     str_capacity := 1000000;
     open_read := None; write_reply := OpenFails PermissionDenied;
     webhook_reply := fun _ => PostReply 200 (lit "ok") |}.

(** The same with a state file that cannot be opened for reading. *)
Definition E_unreadable (data : list item) : env :=
  {| KEY_ID := Some (lit "KEY"); PRIVATE_KEY := Some (lit "PEM");
     ISSUER_ID := Some (lit "ISSUER");
     now_utc := 1704196800000000;
     now_isoformat := lit "2024-01-02T04:00:00.000000";
     fromisoformat := parse;
     api_reply := reply data;
     str_capacity := 1000000;
     open_read := Some PermissionDenied; write_reply := WriteOk;
     webhook_reply := fun _ => PostReply 200 (lit "ok") |}.

(** The same with a webhook that rejects the second call of the run. *)
Definition E_second_fails : env :=
  {| KEY_ID := Some (lit "KEY"); PRIVATE_KEY := Some (lit "PEM");
     ISSUER_ID := Some (lit "ISSUER");
     now_utc := 1704196800000000;
     now_isoformat := lit "2024-01-02T04:00:00.000000";
     fromisoformat := parse;
     api_reply := reply [item1; item2];
     str_capacity := 1000000;
     open_read := None; write_reply := WriteOk;
     webhook_reply := fun n =>
       match n with
       | 1%nat => PostReply 500 (lit "server_error")
       | _ => PostReply 200 (lit "ok")
       end |}.

Definition app_id : str := lit "6596773195".
Definition webhook_url : str := lit "https://hooks.slack.com/services/T/B/X".
Definition channel : str := lit "#app-reviews".

(** No state file yet, no delivery made. *)
Definition s0 : state := State None 0.
(** A state file that knows [r1]. *)
Definition s1 : state :=
  State (Some (JsonObject (Some [lit "r1"]) (Some (lit "2024-01-01T04:00:00")))) 0.
(** A state file that is not JSON. *)
Definition s_garbage : state := State (Some Garbage) 0.

End Sample.

(* ===================================================================== *)
(** ** utils.py: sanitize_string *)
(* ===================================================================== *)

(** [c.isspace()], which is also what [\s] matches in a [str] pattern: the
    characters of bidirectional type WS, B or S and of category Zs. *)
Definition isspace (c : N) : bool :=
  ((9 <=? c) && (c <=? 13) || (28 <=? c) && (c <=? 32)
   || (c =? 0x85) || (c =? 0xA0) || (c =? 0x1680)
   || (0x2000 <=? c) && (c <=? 0x200A)
   || (c =? 0x2028) || (c =? 0x2029) || (c =? 0x202F) || (c =? 0x205F)
   || (c =? 0x3000))%N.

(** The class [[\n\t\r]]. *)
Definition is_newline_tab (c : N) : bool := ((c =? 10) || (c =? 9) || (c =? 13))%N.

(** [re.sub(r'[class]+', ' ', s)]: every maximal run of characters of the
    class becomes one space; the space is written at the last character of
    the run. *)
Fixpoint sub_runs (class : N -> bool) (s : str) : str :=
  match s with
  | [] => []
  | c :: rest =>
      if class c then
        match rest with
        | c' :: _ => if class c' then sub_runs class rest else 32%N :: sub_runs class rest
        | [] => [32%N]
        end
      else c :: sub_runs class rest
  end.

(** [s.lstrip()], [s.rstrip()] and [s.strip()] without argument. *)
Fixpoint lstrip (s : str) : str :=
  match s with
  | [] => []
  | c :: rest => if isspace c then lstrip rest else s
  end.

Definition rstrip (s : str) : str := reverse (lstrip (reverse s)).

Definition strip (s : str) : str := rstrip (lstrip s).

(** [text] is [None] or a string. *)
Definition sanitize_string (text : option str) : str :=
  match text with
  | None | Some [] => []
  | Some text =>
      let text := sub_runs is_newline_tab text in
      let text := sub_runs isspace text in
      strip text
  end.

(* ===================================================================== *)
(** ** core.py: format_review_message and main *)
(* ===================================================================== *)

(** The dictionary [{"type": .., "text": {"type": .., "text": ..}}]. *)
Record section_block := SectionBlock {
  block_type : str;
  block_text_type : str;
  block_text : str
}.

(** The argument is a raw record of the API, with its fields under
    [attributes]; an absent [attributes] reads as the empty dictionary.
    Building the star line raises on a rating that is not an integer or
    is too large. *)
Definition format_review_message (review : item) : M section_block :=
  let attributes :=
    default {| a_rating := None; a_title := None; a_body := None;
               a_reviewerNickname := None; a_territory := None;
               a_createdDate := None |} (item_attributes review) in
  capacity ← ask str_capacity;
  rating ← lift (repeat_star capacity (default (VInt 0) (a_rating attributes)));
  ret   {| block_type := lit "section";
           block_text_type := lit "mrkdwn";
           block_text :=
             lit "*New App Store Review*" ++ NL
             ++ lit "Rating: " ++ rating ++ NL
             ++ lit "Title: "
             ++ format_value (default (VStr (lit "(No title)")) (a_title attributes)) ++ NL
             ++ lit "Review: "
             ++ format_value (default (VStr (lit "(No content)")) (a_body attributes)) ++ NL
             ++ lit "Reviewer: "
             ++ format_value (default (VStr (lit "Anonymous"))
                                (a_reviewerNickname attributes)) ++ NL
             ++ lit "Territory: "
             ++ format_value (default (VStr (lit "Unknown")) (a_territory attributes)) ++ NL
             ++ lit "Date: "
             ++ format_value (default (VStr (lit "Unknown")) (a_createdDate attributes)) |}.

(** [f"{v}"] for a value of [os.getenv]: the text ["None"] when unset. *)
Definition format_getenv (v : option str) : str := default (lit "None") v.

(** [main] of core.py. [APP_ID] and [SLACK_WEBHOOK_URL] are the values of
    [os.getenv]; an unset webhook reaches [requests.post], which reads its URL
    as [str(url)]. The result is what was printed, one line per [print]. *)
Definition main (APP_ID SLACK_WEBHOOK_URL : option str) : M (list str) :=
  reviews ← get_recent_reviews (format_getenv APP_ID) 1;
  match reviews with
  | [] => ret [lit "No reviews found in the specified time period."]
  | _ =>
      send_slack_notification (format_getenv SLACK_WEBHOOK_URL) reviews
        (lit "#app-reviews");;
      ret []
  end.

(* ===================================================================== *)
(** ** cli.py *)
(* ===================================================================== *)

(** What the run controller takes from [pytz] and [strftime]. *)
Record locale := Locale {
  (** the UTC offset of America/Los_Angeles at an instant, in microseconds *)
  utcoffset : Z -> Z;
  (** [t.astimezone(Los_Angeles).strftime('%Y-%m-%d %H:%M:%S %Z')] *)
  strftime_pst : Z -> str;
  (** [t.isoformat()] of an aware UTC datetime *)
  isoformat_utc : Z -> str
}.

Module Cli.

(** Instants are microseconds since the epoch; a wall-clock time of the zone
    is the instant plus the offset. [astimezone] gives the datetime the
    offset in force at [current_time], and [replace], [+ timedelta] and the
    conversion back to UTC keep that offset. [None] is the [OverflowError] of
    a datetime outside [datetime.min .. datetime.max]. *)
Definition get_next_check_time (offset : Z) (current_time : Z) : option Z :=
  let current_time_pst := current_time + offset in
  if bool_decide (datetime_min ≤ current_time_pst ≤ datetime_max) then
    let target_time := current_time_pst / 86400000000 * 86400000000 + 9 * 3600000000 in
    let target_time :=
      if bool_decide (current_time_pst > target_time) then target_time + 86400000000
      else target_time in
    if bool_decide (target_time ≤ datetime_max ∧
                    datetime_min ≤ target_time - offset ≤ datetime_max)
    then Some (target_time - offset)
    else None
  else None.

(** [v = os.getenv(..); if not v: raise ValueError(msg)]. *)
Definition required (v : option str) (msg : string) : M str :=
  match v with
  | Some (c :: rest) => ret (c :: rest)
  | _ => raise ValueError (lit msg)
  end.

(** The status message of a run without new reviews. *)
Definition status_message (L : locale) (current_time next_run days : Z) : str :=
  lit "*App Review Check*" ++ NL
  ++ lit "Time: " ++ strftime_pst L current_time ++ NL
  ++ lit "Status: No new reviews found in the last " ++ str_of_Z days ++ lit " days" ++ NL
  ++ lit "Next check: " ++ strftime_pst L next_run.

(** The pseudo review that carries the status message. *)
Definition status_review (L : locale) (current_time next_run days : Z) : review :=
  {| review_id := Some (lit "no_reviews");
     rating := Some (VInt 0);
     title := Some (VStr (lit "Review Check Complete"));
     body := Some (VStr (status_message L current_time next_run days));
     author := None;
     territory := None;
     date := Some (VStr (isoformat_utc L current_time)) |}.

(** The lines a dry run prints for one review, given its star line. *)
Definition review_lines (rating : str) (review : review) : list str :=
  [ NL ++ lit "Found review:";
    lit "Rating: " ++ rating;
    lit "Title: " ++ format_value (default (VStr (lit "No title")) (title review));
    lit "Review: " ++ format_value (default (VStr (lit "No review text")) (body review));
    lit "Date: " ++ format_value (default (VStr (lit "Unknown")) (date review));
    lit "--------------------------------------------------" ].

(** The printing loop of a dry run; the result is what it printed when it
    ran to its end. Building a star line raises on a rating that is not an
    integer or is too large, after the lines before it were printed. *)
Fixpoint print_reviews (new_reviews : list review) : M (list str) :=
  match new_reviews with
  | [] => ret []
  | review :: rest =>
      capacity ← ask str_capacity;
      rating ← lift (repeat_star capacity (default (VInt 0) (rating review)));
      printed ← print_reviews rest;
      ret (review_lines rating review ++ printed)
  end.

(** The lines a dry run prints for new reviews whose star lines can be
    built. *)
Definition dry_run_lines (new_reviews : list review) : list str :=
  (NL ++ lit "Found " ++ str_of_Z (Z.of_nat (length new_reviews)) ++ lit " new reviews:")
  :: flat_map (fun review =>
       review_lines (stars (default (VInt 0) (rating review))) review)
       new_reviews.

(** [main] of cli.py, after [setup_logging] and [load_dotenv]: [APP_ID] and
    [SLACK_WEBHOOK_URL] are the values of [os.getenv]. The result is what was
    printed, one line per [print]; writing to the standard output is taken
    to succeed. *)
Definition main (L : locale) (APP_ID SLACK_WEBHOOK_URL : option str)
    (days : Z) (dry_run : bool) : M (list str) :=
  try
    (app_id ← required APP_ID "APP_ID not found in config";
     new_reviews ← process_reviews app_id days;
     match new_reviews with
     | [] =>
         log INFO (lit "No new reviews to process");;
         if negb dry_run then
           webhook_url ← required SLACK_WEBHOOK_URL "SLACK_WEBHOOK_URL not found in config";
           current_time ← ask now_utc;
           next_run ←
             match get_next_check_time (utcoffset L current_time) current_time with
             | Some t => ret t
             | None => raise OverflowError (lit "date value out of range")
             end;
           send_slack_notification webhook_url
             [status_review L current_time next_run days] (lit "#app-reviews");;
           ret [lit "No new reviews found in the specified time period."]
         else ret []
     | _ =>
         if negb dry_run then
           webhook_url ← required SLACK_WEBHOOK_URL "SLACK_WEBHOOK_URL not found in config";
           send_slack_notification webhook_url new_reviews (lit "#app-reviews");;
           log INFO (lit "Successfully processed "
                     ++ str_of_Z (Z.of_nat (length new_reviews)) ++ lit " reviews");;
           ret []
         else
           printed ← print_reviews new_reviews;
           ret ((NL ++ lit "Found " ++ str_of_Z (Z.of_nat (length new_reviews))
                 ++ lit " new reviews:") :: printed)
     end)
    (except Exception (fun e =>
       log ERROR (lit "Error: " ++ exn_msg e);;
       reraise e)).

End Cli.

(** A request to the review source. *)
Definition is_get (e : event) : bool :=
  match e with HttpGet _ => true | _ => false end.

(** A string in the form [sanitize_string] produces: it neither starts nor
    ends with whitespace, and its only whitespace is single spaces. *)
Fixpoint single_spaced (s : str) : bool :=
  match s with
  | [] => true
  | c :: rest =>
      (if isspace c then
         (c =? 32)%N && match rest with c' :: _ => negb (isspace c') | [] => false end
       else true)
      && single_spaced rest
  end.

Definition sanitized (s : str) : bool :=
  match s with
  | [] => true
  | c :: _ => negb (isspace c) && single_spaced s
  end.

(** [rstrip] by structural recursion. *)
Fixpoint rstrip_rec (s : str) : str :=
  match s with
  | [] => []
  | c :: rest =>
      match rstrip_rec rest with
      | [] => if isspace c then [] else [c]
      | r => c :: r
      end
  end.

(** Whitespace is single spaces, possibly one at the very end. *)
Fixpoint collapsed (s : str) : bool :=
  match s with
  | [] => true
  | c :: rest =>
      (if isspace c then
         (c =? 32)%N && match rest with c' :: _ => negb (isspace c') | [] => true end
       else true)
      && collapsed rest
  end.

(** The exception the delivery loop ends with when a call is not accepted. *)
Definition delivery_failure (p : post_outcome) : exn :=
  match p with
  | PostRaises msg => Exn RequestException msg
  | PostReply _ error_msg =>
      Exn SlackError (lit "Failed to send notification: " ++ error_msg)
  end.

Module Sample2.

(** A record whose date parses without a UTC offset. *)
Definition item_naive : item :=
  Item (Some (lit "r4"))
       (Some {| a_rating := Some (VInt 2); a_title := Some (VStr (lit "Meh"));
                a_body := Some (VStr (lit "Slow"));
                a_reviewerNickname := Some (VStr (lit "bob"));
                a_territory := Some (VStr (lit "CAN"));
                a_createdDate := Some (VStr (lit "2024-01-02T10:00:00")) |}).

Definition r_naive : review :=
  {| review_id := Some (lit "r4"); rating := Some (VInt 2); title := Some (VStr (lit "Meh"));
     body := Some (VStr (lit "Slow")); author := Some (VStr (lit "bob"));
     territory := Some (VStr (lit "CAN"));
     date := Some (VStr (lit "2024-01-02T10:00:00")) |}.


Definition r_null : review :=
  {| review_id := Some (lit "r5"); rating := Some VNull; title := Some VNull;
     body := Some VNull; author := Some (VStr (lit "cat"));
     territory := Some (VStr (lit "FRA"));
     date := Some (VStr (lit "2024-01-02T10:00:00Z")) |}.


(** The zone is eight hours behind UTC; times are not rendered. *)
Definition L : locale :=
  {| utcoffset := fun _ => -8 * 3600000000;
     strftime_pst := fun _ => lit "2024-01-02 04:00:00 PST";
     isoformat_utc := fun _ => lit "2024-01-02T12:00:00+00:00" |}.

(** A webhook that rejects every call. *)
Definition E_webhook_down (data : list item) : env :=
  {| KEY_ID := Some (lit "KEY"); PRIVATE_KEY := Some (lit "PEM");
     ISSUER_ID := Some (lit "ISSUER");
     now_utc := 1704196800000000;
     now_isoformat := lit "2024-01-02T04:00:00.000000";
     fromisoformat := Sample.parse;
     api_reply := Sample.reply data;
     str_capacity := 1000000;
     open_read := None; write_reply := WriteOk;
     webhook_reply := fun _ => PostReply 500 (lit "server_error") |}.

(** A state file whose write fails after it was opened. *)
Definition E_disk_full (data : list item) : env :=
  {| KEY_ID := Some (lit "KEY"); PRIVATE_KEY := Some (lit "PEM");
     ISSUER_ID := Some (lit "ISSUER");
     now_utc := 1704196800000000;
     now_isoformat := lit "2024-01-02T04:00:00.000000";
     fromisoformat := Sample.parse;
     api_reply := Sample.reply data;
     str_capacity := 1000000;
     open_read := None;
     write_reply := WriteFails (lit "[Errno 28] No space left on device") Garbage;
     webhook_reply := fun _ => PostReply 200 (lit "ok") |}.

(** An API client that cannot be built. *)
Definition E_no_client : env :=
  {| KEY_ID := Some (lit "KEY"); PRIVATE_KEY := Some (lit "PEM");
     ISSUER_ID := Some (lit "ISSUER");
     now_utc := 1704196800000000;
     now_isoformat := lit "2024-01-02T04:00:00.000000";
     fromisoformat := Sample.parse;
     api_reply := ClientRaises (lit "[Errno 2] No such file or directory: 'PEM'");
     str_capacity := 1000000;
     open_read := None; write_reply := WriteOk;
     webhook_reply := fun _ => PostReply 200 (lit "ok") |}.

(** A review source that answers 503. *)
Definition E_source_down : env :=
  {| KEY_ID := Some (lit "KEY"); PRIVATE_KEY := Some (lit "PEM");
     ISSUER_ID := Some (lit "ISSUER");
     now_utc := 1704196800000000;
     now_isoformat := lit "2024-01-02T04:00:00.000000";
     fromisoformat := Sample.parse;
     api_reply := GetReply 503 (lit "Service Unavailable") None;
     str_capacity := 1000000;
     open_read := None; write_reply := WriteOk;
     webhook_reply := fun _ => PostReply 200 (lit "ok") |}.

End Sample2.

(* ===================================================================== *)
(** ** Proofs: the monad and the exception classes *)
(* ===================================================================== *)

(** Literals stay folded in goals; closed goals are settled by evaluation. *)
Local Opaque lit str_of_Z.

Ltac munfold :=
  unfold mbind, M_bind, mret, M_ret, bind, try, ask, emit, log, ret, raise,
    reraise, lift, get_file, put_file, getitem, except, orelse in *.

Lemma issubclass_Exception c : issubclass c Exception = true.
Proof. done. Qed.

(** [issubclass] is the reflexive and transitive closure of [base_class]. *)
Lemma issubclass_base_class c d :
  issubclass c d = true ↔
  d = c ∨ d = base_class c ∨ d = base_class (base_class c)
  ∨ d = base_class (base_class (base_class c)).
Proof. destruct c, d; vm_compute; intuition congruence. Qed.

Lemma outcome_eq {A} (o1 o2 : outcome A) :
  res o1 = res o2 → final o1 = final o2 → trace o1 = trace o2 → o1 = o2.
Proof. destruct o1, o2; simpl; congruence. Qed.

Lemma filter_agree {A} (P Q : A → Prop) `{∀ x, Decision (P x)} `{∀ x, Decision (Q x)}
    (l : list A) :
  (∀ x, x ∈ l → P x ↔ Q x) → filter P l = filter Q l.
Proof.
  induction l as [|a l IH]; intros HPQ; [done|].
  rewrite !filter_cons, IH by (intros x Hx; apply HPQ; by right).
  assert (P a ↔ Q a) as Ha by (apply HPQ; by left).
  destruct (decide (P a)) as [HP|HP], (decide (Q a)) as [HQ|HQ]; try done; tauto.
Qed.

Lemma filter_save_store (t : list event) :
  filter is_save t = filter is_save (filter is_store t).
Proof.
  rewrite list_filter_filter. apply filter_agree. intros [] _; simpl; tauto.
Qed.

Lemma quiet_no_store t : forallb quiet t = true → filter is_store t = [].
Proof.
  induction t as [|e t IH]; [done|]. simpl. intros [He Ht]%andb_true_iff.
  rewrite filter_cons, IH by done. by destruct e.
Qed.

Lemma quiet_no_post t : forallb quiet t = true → filter is_post t = [].
Proof.
  induction t as [|e t IH]; [done|]. simpl. intros [He Ht]%andb_true_iff.
  rewrite filter_cons, IH by done. by destruct e.
Qed.

Lemma log_no_store t : forallb is_log t = true → filter is_store t = [].
Proof.
  induction t as [|e t IH]; [done|]. simpl. intros [He Ht]%andb_true_iff.
  rewrite filter_cons, IH by done. by destruct e.
Qed.

Lemma log_no_post t : forallb is_log t = true → filter is_post t = [].
Proof.
  induction t as [|e t IH]; [done|]. simpl. intros [He Ht]%andb_true_iff.
  rewrite filter_cons, IH by done. by destruct e.
Qed.


(* ===================================================================== *)
(** ** Proofs: the review source client *)
(* ===================================================================== *)

Lemma filter_by_date_frame E s a b reviews acc :
  final (filter_by_date a b reviews acc E s) = s ∧
  trace (filter_by_date a b reviews acc E s) = [].
Proof.
  revert acc. induction reviews as [|r rest IH]; intros acc; [done|].
  cbn [filter_by_date]. munfold.
  destruct (date r) as [[d| | | | | |]|]; simpl; try done.
  - destruct (fromisoformat E _); simpl.
    + specialize (IH acc). by destruct (filter_by_date _ _ rest acc E s).
    + done.
    + case_bool_decide; simpl.
      * specialize (IH (acc ++ [r])). by destruct (filter_by_date _ _ rest _ E s).
      * specialize (IH acc). by destruct (filter_by_date _ _ rest acc E s).
  - specialize (IH acc). by destruct (filter_by_date _ _ rest acc E s).
Qed.

Lemma first_date_error_cons E r rest :
  first_date_error E (r :: rest)
  = match date_error E r with Some e => Some e | None => first_date_error E rest end.
Proof. unfold first_date_error. simpl. by destruct (date_error E r). Qed.

(** The date filter raises at the first review whose date it cannot read or
    compare, and otherwise returns the reviews it keeps. *)
Lemma filter_by_date_res E s a b reviews acc :
  res (filter_by_date a b reviews acc E s) =
    match first_date_error E reviews with
    | Some e => Raise e
    | None => Return (acc ++ filter (fun r => keeps E a b r = true) reviews)
    end.
Proof.
  revert acc. induction reviews as [|r rest IH]; intros acc.
  { simpl. by rewrite app_nil_r. }
  rewrite first_date_error_cons. cbn [filter_by_date]. munfold.
  rewrite filter_cons.
  destruct (decide (keeps E a b r = true)) as [Hk|Hk];
    unfold keeps in Hk; unfold date_error;
    destruct (date r) as [[d| | | | | |]|]; simpl; try done.
  - destruct (fromisoformat E _); simpl; try done.
    rewrite Hk. simpl.
    specialize (IH (acc ++ [r])). rewrite <- app_assoc in IH.
    by destruct (filter_by_date _ _ rest _ E s).
  - destruct (fromisoformat E _); simpl.
    + specialize (IH acc). by destruct (filter_by_date _ _ rest acc E s).
    + done.
    + apply not_true_is_false in Hk. rewrite Hk. simpl.
      specialize (IH acc). by destruct (filter_by_date _ _ rest acc E s).
  - specialize (IH acc). by destruct (filter_by_date _ _ rest acc E s).
Qed.

Lemma first_date_error_None E reviews :
  first_date_error E reviews = None ↔ Forall (fun r => date_error E r = None) reviews.
Proof.
  induction reviews as [|r rest IH]; [by split|].
  rewrite first_date_error_cons, Forall_cons.
  destruct (date_error E r); [|by rewrite IH; split; [|intros [_ ?]]].
  split; [done|]. by intros [? _].
Qed.


Lemma get_recent_reviews_spec app_id days E s :
  let o := get_recent_reviews app_id days E s in
  final o = s ∧ forallb quiet (trace o) = true ∧
  match res o with
  | Raise e => exn_cls e = APIError
  | Return R =>
      ∃ txt data other,
        api_reply E = GetReply 200 txt (Some (JObject (Some data) other)) ∧
        first_date_error E (omap review_of_item data) = None ∧
        R = filter (fun r => keeps E (window_start E days) (now_utc E) r = true)
              (omap review_of_item data)
  end.
Proof.
  unfold get_recent_reviews, make_api_request, timedelta_days, datetime_sub, window_start.
  munfold. simpl.
  repeat (case_bool_decide; simpl); try done.
  destruct (negb _); simpl; [done|].
  destruct (api_reply E) as [msg|msg|st txt [j|]]; simpl; try done.
  - case_bool_decide; simpl; [done|].
    destruct j as [[data|] o| |b]; simpl; try done; [|by destruct o|by destruct b].
    destruct (filter_by_date_frame E s (now_utc E - days * 86400000000) (now_utc E)
                (omap review_of_item data) []) as [Hf Ht].
    pose proof (filter_by_date_res E s (now_utc E - days * 86400000000) (now_utc E)
                (omap review_of_item data) []) as Hr.
    destruct (filter_by_date _ _ _ _ E s) as [rf sf tf]. simpl in *. subst.
    destruct (first_date_error E _) as [[c m]|] eqn:He; simpl.
    + by destruct c.
    + split_and!; [done..|]. by eexists _, _, _.
  - case_bool_decide; simpl; done.
Qed.

Lemma fetched_ids app_id days E s R :
  res (get_recent_reviews app_id days E s) = Return R →
  Forall (fun r => is_Some (review_id r)) R.
Proof.
  intros HR. destruct (get_recent_reviews_spec app_id days E s) as (_ & _ & H).
  rewrite HR in H. destruct H as (txt & data & other & _ & _ & ->).
  apply Forall_forall. intros r [_ Hr]%list_elem_of_filter.
  apply list_elem_of_omap in Hr as (it & _ & Hit).
  unfold review_of_item in Hit. destruct (item_attributes it); [|done].
  injection Hit as <-. simpl. eauto.
Qed.


Lemma filter_by_date_env E E' s a b l acc :
  fromisoformat E' = fromisoformat E →
  filter_by_date a b l acc E' s = filter_by_date a b l acc E s.
Proof.
  intros HE. apply outcome_eq.
  - rewrite !filter_by_date_res. unfold first_date_error, date_error, keeps. by rewrite HE.
  - by rewrite !(proj1 (filter_by_date_frame _ _ _ _ _ _)).
  - by rewrite !(proj2 (filter_by_date_frame _ _ _ _ _ _)).
Qed.






(* ===================================================================== *)
(** ** Proofs: the seen-set store *)
(* ===================================================================== *)

Lemma can_read_true E : can_read E = true ↔ open_read E = None.
Proof. apply bool_decide_eq_true. Qed.

Lemma can_write_true E : can_write E = true ↔ write_reply E = WriteOk.
Proof. apply bool_decide_eq_true. Qed.

Lemma can_write_false E : can_write E = false ↔ write_reply E ≠ WriteOk.
Proof. apply bool_decide_eq_false. Qed.

Lemma save_processed_reviews_eq ids lr E s :
  save_processed_reviews ids lr E s =
    match write_reply E with
    | WriteOk =>
        Outcome (Return tt) (State (Some (JsonObject (Some ids) lr)) (posted s))
          [StoreSave ids lr]
    | OpenFails err =>
        Outcome (Raise (open_exn err)) s
          [StoreSave ids lr;
           Log ERROR (lit "Error saving processed reviews: " ++ exn_msg (open_exn err))]
    | WriteFails msg remains =>
        Outcome (Raise (Exn OSError msg)) (State (Some remains) (posted s))
          [StoreSave ids lr; Log ERROR (lit "Error saving processed reviews: " ++ msg)]
    end.
Proof.
  unfold save_processed_reviews. munfold.
  destruct (write_reply E) as [[]| |]; done.
Qed.

Lemma load_processed_reviews_frame E s :
  let o := load_processed_reviews E s in
  final o = s ∧ filter is_store (trace o) = [StoreLoad] ∧ filter is_post (trace o) = [].
Proof.
  unfold load_processed_reviews. munfold. simpl.
  destruct (file s) as [[| | |e| |]|]; simpl; destruct (open_read E) as [[]|]; simpl;
    try done.
  by destruct (exn_cls e).
Qed.

Lemma load_saved E s ids lr :
  can_read E = true →
  load_processed_reviews E (State (Some (JsonObject (Some ids) lr)) (posted s))
  = Outcome (Return (Processed ids lr))
            (State (Some (JsonObject (Some ids) lr)) (posted s)) [StoreLoad].
Proof.
  intros Hr%can_read_true. unfold load_processed_reviews. munfold. simpl. by rewrite Hr.
Qed.

Lemma load_garbage E s :
  can_read E = true → file s = Some Garbage →
  res (load_processed_reviews E s) = Return {| review_ids := []; last_run := None |}.
Proof.
  intros Hr%can_read_true Hf. unfold load_processed_reviews. munfold.
  rewrite Hf. simpl. by rewrite Hr.
Qed.

(** C6 (as stated, refuted): the state file exists and cannot be opened;
    [load_processed_reviews] raises [PermissionError]. A state file that
    holds JSON other than an object makes it raise [AttributeError]. A state
    file whose bytes are not text makes it raise [UnicodeDecodeError], which
    is a [ValueError] and not a [JSONDecodeError]; one that is nested too
    deeply makes it raise [RecursionError]. *)
Lemma load_processed_reviews_can_raise :
  res (load_processed_reviews (Sample.E_unreadable []) Sample.s1)
  = Raise (Exn PermissionError (lit "[Errno 13] Permission denied")) ∧
  res (load_processed_reviews (Sample.E []) (State (Some JsonOther) 0))
  = Raise (Exn AttributeError (lit "object has no attribute 'get'")) ∧
  res (load_processed_reviews (Sample.E []) (State (Some Undecodable) 0))
  = Raise (Exn UnicodeDecodeError (lit "'utf-8' codec can't decode byte")) ∧
  issubclass UnicodeDecodeError JSONDecodeError = false ∧
  res (load_processed_reviews (Sample.E []) (State (Some TooDeep) 0))
  = Raise (Exn RecursionError (lit "maximum recursion depth exceeded")).
Proof. vm_compute. done. Qed.

(** C6 (amended): [load_processed_reviews] returns an empty seen set when
    the state file is missing, and when the file can be opened and holds
    text that [json.load] rejects with [JSONDecodeError] it logs a warning
    and returns an empty seen set; the state is unchanged. *)
Theorem load_processed_reviews_missing_or_corrupt E s :
  file s = None ∨ (can_read E = true ∧ file s = Some Garbage) →
  let o := load_processed_reviews E s in
  res o = Return {| review_ids := []; last_run := None |} ∧
  final o = s ∧
  (file s = Some Garbage →
     Log WARNING (lit "Error reading processed reviews file, starting fresh") ∈ trace o).
Proof.
  unfold load_processed_reviews. munfold.
  intros [Hf|[Hr%can_read_true Hf]]; rewrite Hf; simpl.
  - done.
  - rewrite Hr. simpl. split_and!; [done..|]. intros _. right. left.
Qed.

Lemma load_processed_reviews_missing_or_corrupt_witness :
  res (load_processed_reviews (Sample.E []) Sample.s_garbage)
  = Return {| review_ids := []; last_run := None |} ∧
  res (load_processed_reviews (Sample.E []) Sample.s0)
  = Return {| review_ids := []; last_run := None |}.
Proof.
  split.
  - apply (load_processed_reviews_missing_or_corrupt (Sample.E []) Sample.s_garbage).
    right. split; reflexivity.
  - apply (load_processed_reviews_missing_or_corrupt (Sample.E []) Sample.s0).
    left. reflexivity.
Defined.

(** C8. Saving a seen set and loading it back returns the same review ids
    (the same list, hence the same set) and the same [last_run], when the
    state file can be written and read. *)
Theorem save_load_round_trip E s ids lr :
  can_write E = true → can_read E = true →
  let o := (save_processed_reviews ids lr;; load_processed_reviews) E s in
  res o = Return {| review_ids := ids; last_run := lr |} ∧
  ∀ P, res o = Return P →
    (list_to_set (review_ids P) : gset str) = list_to_set ids ∧ last_run P = lr.
Proof.
  intros Hw%can_write_true Hr%can_read_true.
  unfold save_processed_reviews, load_processed_reviews. munfold.
  simpl. rewrite Hw. simpl. rewrite Hr. simpl.
  split; [done|]. by intros P [= <-].
Qed.

Lemma save_load_round_trip_witness :
  res ((save_processed_reviews [lit "r2"; lit "r1"] (Some (lit "2024-01-02T04:00:00"));;
        load_processed_reviews) (Sample.E []) Sample.s1)
  = Return {| review_ids := [lit "r2"; lit "r1"];
              last_run := Some (lit "2024-01-02T04:00:00") |}.
Proof.
  apply (save_load_round_trip (Sample.E []) Sample.s1); reflexivity.
Defined.


(* ===================================================================== *)
(** ** Proofs: the dedup pipeline *)
(* ===================================================================== *)

Lemma ids_of_nil : ids_of [] = ∅.
Proof. done. Qed.

Lemma fresh_unseen seen R r : r ∈ fresh seen R → unseen seen r.
Proof.
  revert seen. induction R as [|x rest IH]; intros seen; cbn [fresh]; [by intros ?%elem_of_nil|].
  destruct (review_id x) as [i|] eqn:Hi; [|by apply IH].
  case_bool_decide as Hin; [by apply IH|].
  intros [->|Hr]%elem_of_cons.
  - unfold unseen. by rewrite Hi.
  - apply IH in Hr. unfold unseen in *. destruct (review_id r); [|done]. set_solver.
Qed.

Lemma fresh_sublist seen R : fresh seen R `sublist_of` R.
Proof.
  revert seen. induction R as [|x rest IH]; intros seen; cbn [fresh]; [done|].
  destruct (review_id x) as [i|]; [|by apply sublist_cons].
  case_bool_decide; [by apply sublist_cons|by apply sublist_skip].
Qed.

Lemma fresh_NoDup seen R : NoDup (review_id <$> fresh seen R).
Proof.
  revert seen. induction R as [|x rest IH]; intros seen; cbn [fresh]; [constructor|].
  destruct (review_id x) as [i|] eqn:Hi; [|by apply IH].
  case_bool_decide as Hin; [by apply IH|].
  rewrite fmap_cons, Hi. constructor; [|by apply IH].
  intros (r & Hr & Hin')%list_elem_of_fmap. apply fresh_unseen in Hin'.
  unfold unseen in Hin'. rewrite <- Hr in Hin'. set_solver.
Qed.

Lemma fresh_first seen R r :
  r ∈ fresh seen R → ∃ l1 l2, R = l1 ++ r :: l2 ∧ review_id r ∉ review_id <$> l1.
Proof.
  revert seen. induction R as [|x rest IH]; intros seen; cbn [fresh]; [by intros ?%elem_of_nil|].
  assert (∀ seen', r ∈ fresh seen' rest → review_id r ≠ review_id x →
          ∃ l1 l2, x :: rest = l1 ++ r :: l2 ∧ review_id r ∉ review_id <$> l1) as Hstep.
  { intros seen' (l1 & l2 & -> & Hl1)%IH Hne. exists (x :: l1), l2. split; [done|].
    rewrite fmap_cons. by intros [?|?]%elem_of_cons. }
  destruct (review_id x) as [i|] eqn:Hi.
  - case_bool_decide as Hin.
    + intros Hr. apply (Hstep _ Hr). apply fresh_unseen in Hr.
      unfold unseen in Hr. destruct (review_id r); [|done].
      by intros [= ->].
    + intros [->|Hr]%elem_of_cons.
      * exists [], rest. split; [done|]. by intros ?%elem_of_nil.
      * apply (Hstep _ Hr). apply fresh_unseen in Hr.
        unfold unseen in Hr. destruct (review_id r); [|done].
        intros [= ->]. set_solver.
  - intros Hr. apply (Hstep _ Hr). apply fresh_unseen in Hr.
    unfold unseen in Hr. by destruct (review_id r).
Qed.

Lemma fresh_complete seen R r :
  r ∈ R → unseen seen r → review_id r ∈ review_id <$> fresh seen R.
Proof.
  revert seen. induction R as [|x rest IH]; intros seen; cbn [fresh]; [by intros ?%elem_of_nil|].
  intros Hr Hun. unfold unseen in Hun.
  destruct (review_id r) as [j|] eqn:Hj; [|done].
  apply elem_of_cons in Hr as [<-|Hr].
  - rewrite Hj, bool_decide_eq_false_2 by done. rewrite fmap_cons, Hj. left.
  - destruct (review_id x) as [i|] eqn:Hi.
    + case_bool_decide as Hin.
      * apply IH; [done|]. unfold unseen. by rewrite Hj.
      * rewrite fmap_cons, Hi. destruct (decide (i = j)) as [->|Hne]; [left|].
        right. apply IH; [done|]. unfold unseen. rewrite Hj.
        by intros [?| ->%elem_of_singleton]%elem_of_union.
    + apply IH; [done|]. unfold unseen. by rewrite Hj.
Qed.

Lemma fresh_filter seen R :
  NoDup (omap review_id R) → fresh seen R = filter (unseen seen) R.
Proof.
  revert seen. induction R as [|x rest IH]; intros seen; cbn [fresh]; [done|].
  rewrite filter_cons.
  change (omap review_id (x :: rest))
    with (match review_id x with
          | Some y => y :: omap review_id rest
          | None => omap review_id rest
          end).
  destruct (review_id x) as [i|] eqn:Hi.
  - intros [Hi' Hnd]%NoDup_cons. case_bool_decide as Hin.
    + rewrite decide_False; [by apply IH|]. unfold unseen. rewrite Hi. by intros ?.
    + rewrite decide_True by (unfold unseen; by rewrite Hi).
      f_equal. rewrite IH by done.
      apply filter_agree. intros r Hr. unfold unseen.
      destruct (review_id r) as [j|] eqn:Hj; [|done].
      assert (j ≠ i).
      { intros ->. apply Hi', list_elem_of_omap. eauto. }
      rewrite not_elem_of_union, elem_of_singleton. tauto.
  - intros Hnd. rewrite decide_False; [by apply IH|]. unfold unseen. rewrite Hi. by intros ?.
Qed.

Lemma filter_processed_spec E s reviews acc seen :
  Forall (fun r => is_Some (review_id r)) reviews →
  let o := filter_processed reviews acc seen E s in
  final o = s ∧ forallb is_log (trace o) = true ∧
  res o = Return (acc ++ fresh seen reviews, seen ∪ ids_of (fresh seen reviews)).
Proof.
  intros Hids. revert acc seen.
  induction Hids as [|r rest [i Hi] _ IH]; intros acc seen; simpl.
  { split_and!; [done..|]. rewrite app_nil_r. f_equal. f_equal.
    unfold ids_of. simpl. by rewrite union_empty_r_L. }
  rewrite Hi. munfold. simpl.
  destruct (decide (i ∈ seen)) as [Hin|Hin].
  - rewrite (bool_decide_eq_false_2 (i ∉ seen)) by (by intros ?).
    rewrite (bool_decide_eq_true_2 (i ∈ seen)) by done. simpl.
    specialize (IH acc seen). by destruct (filter_processed rest acc seen E s).
  - rewrite (bool_decide_eq_true_2 (i ∉ seen)) by done.
    rewrite (bool_decide_eq_false_2 (i ∈ seen)) by done. simpl.
    specialize (IH (acc ++ [r]) (seen ∪ {[i]})).
    destruct (filter_processed rest _ _ E s) as [rp sp tp]. simpl in *.
    destruct IH as (-> & -> & ->). split_and!; [done..|].
    rewrite <- app_assoc. simpl. f_equal. f_equal.
    unfold ids_of. simpl. rewrite Hi. simpl. by rewrite (assoc_L (∪)).
Qed.

Local Opaque get_recent_reviews load_processed_reviews save_processed_reviews filter_processed.
Local Arguments fresh : simpl never.
Local Arguments elements : simpl never.
Local Arguments size : simpl never.
Local Arguments list_to_set : simpl never.
Local Arguments union : simpl never.

Lemma process_reviews_spec app_id days E s :
  let o := process_reviews app_id days E s in
  filter is_post (trace o) = [] ∧
  match res (get_recent_reviews app_id days E s) with
  | Raise _ | Return [] =>
      res o = Return [] ∧ final o = s ∧ filter is_store (trace o) = []
  | Return R =>
      match res (load_processed_reviews E s) with
      | Raise _ =>
          res o = Return [] ∧ final o = s ∧ filter is_store (trace o) = [StoreLoad]
      | Return P =>
          let seen : gset str := list_to_set (review_ids P) in
          let seen' := seen ∪ ids_of (fresh seen R) in
          match fresh seen R with
          | [] =>
              res o = Return [] ∧ final o = s ∧
              filter is_store (trace o) = [StoreLoad]
          | new =>
              filter is_store (trace o)
                = [StoreLoad; StoreSave (elements seen') (Some (now_isoformat E))] ∧
              if can_write E then res o = Return new ∧ final o = saved E s seen'
              else res o = Return [] ∧ final o = after_failed_save E s
          end
      end
  end.
Proof.
  pose proof (fetched_ids app_id days E s) as Hids.
  destruct (get_recent_reviews_spec app_id days E s) as (Hf & Hq & _).
  unfold process_reviews. munfold.
  destruct (get_recent_reviews app_id days E s) as [[R|e] sf tf]; simpl in *; subst sf.
  2:{ rewrite !filter_app, quiet_no_store, quiet_no_post by done. done. }
  specialize (Hids R eq_refl).
  destruct R as [|r R]; simpl.
  { rewrite !filter_app, quiet_no_store, quiet_no_post by done. done. }
  destruct (load_processed_reviews_frame E s) as (Hlf & Hls & Hlp).
  destruct (load_processed_reviews E s) as [[P|e] sl tl]; simpl in *; subst sl.
  2:{ rewrite !filter_app, quiet_no_store, quiet_no_post, Hls, Hlp by done. done. }
  destruct (filter_processed_spec E s (r :: R) [] (list_to_set (review_ids P)) Hids)
    as (Hpf & Hpt & Hpr).
  destruct (filter_processed (r :: R) [] _ E s) as [rp sp tp]; simpl in *.
  subst sp rp. simpl.
  destruct (fresh _ (r :: R)) as [|n new] eqn:Hnew; simpl.
  { rewrite !filter_app, quiet_no_store, quiet_no_post, Hls, Hlp by done.
    rewrite !filter_cons, !filter_app, log_no_store, log_no_post by done. done. }
  rewrite save_processed_reviews_eq. unfold can_write, after_failed_save.
  destruct (write_reply E) as [err| |]; simpl.
  - rewrite !filter_app, quiet_no_store, quiet_no_post, Hls, Hlp by done.
    rewrite !filter_cons, !filter_app, log_no_store, log_no_post by done.
    by destruct err.
  - rewrite !filter_app, quiet_no_store, quiet_no_post, Hls, Hlp by done.
    rewrite !filter_cons, !filter_app, log_no_store, log_no_post by done. done.
  - rewrite !filter_app, quiet_no_store, quiet_no_post, Hls, Hlp by done.
    rewrite !filter_cons, !filter_app, log_no_store, log_no_post by done. done.
Qed.

(** C1 (what the code does): when the fetch raises, [process_reviews] does
    not raise; it logs the error and returns the empty list. It makes no
    store load, no store write and no delivery attempt, and leaves the state
    untouched. *)
Theorem process_reviews_swallows_fetch_failure app_id days E s e :
  res (get_recent_reviews app_id days E s) = Raise e →
  let o := process_reviews app_id days E s in
  res o = Return [] ∧ final o = s ∧
  filter is_store (trace o) = [] ∧ filter is_post (trace o) = [].
Proof.
  intros He. destruct (process_reviews_spec app_id days E s) as (Hp & H).
  rewrite He in H. by destruct H as (? & ? & ?).
Qed.

(** Without credentials the fetch raises [APIError], and [process_reviews]
    returns the empty list. *)
Lemma process_reviews_swallows_fetch_failure_witness :
  res (get_recent_reviews Sample.app_id 1 Sample.E_no_credentials Sample.s0)
  = Raise (Exn APIError (lit "Missing required API credentials")) ∧
  res (process_reviews Sample.app_id 1 Sample.E_no_credentials Sample.s0) = Return [].
Proof.
  split; [vm_compute; reflexivity|].
  apply (process_reviews_swallows_fetch_failure Sample.app_id 1
           Sample.E_no_credentials Sample.s0
           (Exn APIError (lit "Missing required API credentials"))).
  vm_compute; reflexivity.
Defined.

(** A save that fails, on a sample: the fetch returns two new reviews, the
    save raises, and [process_reviews] does not return the two reviews. When the file cannot be opened it is left as it was; when the
    write fails after the file was opened, here with nothing written, the
    file is left cut off. *)
Lemma process_reviews_save_failure_drops_reviews :
  let E := Sample.E_read_only [Sample.item1; Sample.item2] in
  res (get_recent_reviews Sample.app_id 1 E Sample.s0) = Return [Sample.r1; Sample.r2] ∧
  fresh ∅ [Sample.r1; Sample.r2] = [Sample.r1; Sample.r2] ∧
  res (save_processed_reviews (elements (ids_of [Sample.r1; Sample.r2]))
         (Some (now_isoformat E)) E Sample.s0)
  = Raise (Exn PermissionError (lit "[Errno 13] Permission denied")) ∧
  res (process_reviews Sample.app_id 1 E Sample.s0) ≠ Return [Sample.r1; Sample.r2] ∧
  let o := process_reviews Sample.app_id 1
             (Sample2.E_disk_full [Sample.item1; Sample.item2]) Sample.s1 in
  res o = Return [] ∧ file (final o) = Some Garbage.
Proof. vm_compute. split_and!; [done..|discriminate|done|done]. Qed.

(** C2 (what the code does): when the fetch succeeds, new reviews are found
    and saving the seen set fails, [process_reviews] does not return the new
    reviews: it attempts the save once, swallows the error that
    [save_processed_reviews] raises and returns the empty list. The state
    file is as it was when it could not be opened; when the write failed
    after the file was opened, which empties it, the file holds what the
    write left. *)
Theorem process_reviews_save_failure app_id days E s R P :
  res (get_recent_reviews app_id days E s) = Return R →
  res (load_processed_reviews E s) = Return P →
  fresh (list_to_set (review_ids P)) R ≠ [] →
  can_write E = false →
  let o := process_reviews app_id days E s in
  res o = Return [] ∧ length (filter is_save (trace o)) = 1%nat ∧
  posted (final o) = posted s ∧
  (∀ err, write_reply E = OpenFails err → final o = s) ∧
  (∀ msg remains, write_reply E = WriteFails msg remains → file (final o) = Some remains).
Proof.
  intros HR HP Hnew Hw. destruct (process_reviews_spec app_id days E s) as (Hp & H).
  rewrite HR in H. destruct R as [|r R]; [done|]. rewrite HP in H. simpl in H.
  destruct (fresh _ (r :: R)) as [|n new]; [done|]. rewrite Hw in H.
  destruct H as (Ht & Hres & Hfin). simpl. rewrite Hfin. unfold after_failed_save.
  split_and!; [done| | | |].
  - by rewrite filter_save_store, Ht.
  - by destruct (write_reply E).
  - by intros err ->.
  - by intros msg remains ->.
Qed.

Lemma process_reviews_save_failure_witness :
  let o := process_reviews Sample.app_id 1
             (Sample.E_read_only [Sample.item1; Sample.item2]) Sample.s0 in
  res o = Return [] ∧ length (filter is_save (trace o)) = 1%nat ∧
  posted (final o) = posted Sample.s0 ∧
  (∀ err, write_reply (Sample.E_read_only [Sample.item1; Sample.item2]) = OpenFails err →
          final o = Sample.s0) ∧
  (∀ msg remains,
     write_reply (Sample.E_read_only [Sample.item1; Sample.item2]) = WriteFails msg remains →
     file (final o) = Some remains).
Proof.
  apply (process_reviews_save_failure Sample.app_id 1
           (Sample.E_read_only [Sample.item1; Sample.item2]) Sample.s0
           [Sample.r1; Sample.r2] (Processed [] None)).
  - vm_compute; reflexivity.
  - vm_compute; reflexivity.
  - vm_compute; discriminate.
  - reflexivity.
Defined.

(** C3 (as stated, refuted): the fetch returns two records with the same
    unseen id; both have an id outside the empty seen set, and only the
    first is returned. *)
Lemma process_reviews_not_exactly_the_unseen :
  let E := Sample.E [Sample.item1; Sample.item1'] in
  res (get_recent_reviews Sample.app_id 1 E Sample.s0) = Return [Sample.r1; Sample.r1'] ∧
  res (load_processed_reviews E Sample.s0) = Return (Processed [] None) ∧
  filter (unseen ∅) [Sample.r1; Sample.r1'] = [Sample.r1; Sample.r1'] ∧
  res (process_reviews Sample.app_id 1 E Sample.s0) = Return [Sample.r1] ∧
  res (process_reviews Sample.app_id 1 E Sample.s0)
  ≠ Return (filter (unseen ∅) [Sample.r1; Sample.r1']).
Proof. vm_compute. split_and!; [done..|]. discriminate. Qed.

(** C3 (amended): when the fetch returns [R], the store loads to the seen
    set [S] and the state file can be read and written, [process_reviews]
    returns [fresh S R]: a subsequence of [R] (same relative order), made of
    the first occurrence of each id of [R] that is not in [S], hence exactly
    the reviews of [R] with an id outside [S] when the ids of [R] are
    pairwise distinct; and the store then loads to [S] union the returned
    ids. *)
Theorem process_reviews_success app_id days E s R P :
  res (get_recent_reviews app_id days E s) = Return R →
  res (load_processed_reviews E s) = Return P →
  can_read E = true → can_write E = true →
  let S : gset str := list_to_set (review_ids P) in
  let o := process_reviews app_id days E s in
  res o = Return (fresh S R) ∧
  fresh S R `sublist_of` R ∧
  (∀ r, r ∈ fresh S R →
     unseen S r ∧ ∃ l1 l2, R = l1 ++ r :: l2 ∧ review_id r ∉ review_id <$> l1) ∧
  (∀ r, r ∈ R → unseen S r → review_id r ∈ review_id <$> fresh S R) ∧
  (NoDup (omap review_id R) → fresh S R = filter (unseen S) R) ∧
  ∃ P', res (load_processed_reviews E (final o)) = Return P' ∧
        list_to_set (review_ids P') = S ∪ ids_of (fresh S R).
Proof.
  intros HR HP Hrd Hw S o.
  split_and!.
  2:{ apply fresh_sublist. }
  2:{ intros r Hr. split; [by eapply fresh_unseen|by eapply fresh_first]. }
  2:{ intros r. apply fresh_complete. }
  2:{ apply fresh_filter. }
  all: destruct (process_reviews_spec app_id days E s) as (_ & H); rewrite HR in H.
  all: fold o in H; fold S.
  - destruct R as [|r R]; [by destruct H|]. rewrite HP in H. simpl in H. fold S in H.
    destruct (fresh S (r :: R)) as [|n new]; [by destruct H|].
    rewrite Hw in H. by destruct H as (_ & ? & _).
  - destruct R as [|r R].
    { destruct H as (_ & -> & _). exists P. split; [done|].
      change (fresh S []) with (@nil review). by rewrite ids_of_nil, union_empty_r_L. }
    rewrite HP in H. simpl in H. fold S in H.
    destruct (fresh S (r :: R)) as [|n new].
    { destruct H as (_ & -> & _). exists P. split; [done|].
      by rewrite ids_of_nil, union_empty_r_L. }
    rewrite Hw in H. destruct H as (_ & _ & ->). unfold saved.
    rewrite load_saved by done. eexists. split; [done|]. simpl.
    apply list_to_set_elements_L.
Qed.

(** With [r1] already seen and a fetch of [r1; r2], [process_reviews]
    returns [r2]. *)
Lemma process_reviews_success_witness :
  let E := Sample.E [Sample.item1; Sample.item2] in
  res (process_reviews Sample.app_id 1 E Sample.s1)
  = Return (fresh (list_to_set [lit "r1"]) [Sample.r1; Sample.r2]).
Proof.
  apply (process_reviews_success Sample.app_id 1
           (Sample.E [Sample.item1; Sample.item2]) Sample.s1
           [Sample.r1; Sample.r2]
           (Processed [lit "r1"] (Some (lit "2024-01-01T04:00:00")))).
  - vm_compute; reflexivity.
  - vm_compute; reflexivity.
  - reflexivity.
  - reflexivity.
Defined.

(** C7. In every run of [process_reviews] the store is saved at most once;
    it is saved only if the fetch returned reviews, the store loaded and at
    least one review was new; without a save the state file is unchanged;
    and when the fetch returns no review the result is empty, there is no
    store interaction at all (no load, no save) and the state is unchanged. *)
Theorem process_reviews_store_writes app_id days E s :
  let o := process_reviews app_id days E s in
  (length (filter is_save (trace o)) ≤ 1)%nat ∧
  (filter is_save (trace o) ≠ [] →
     ∃ R P, res (get_recent_reviews app_id days E s) = Return R ∧
            res (load_processed_reviews E s) = Return P ∧
            fresh (list_to_set (review_ids P)) R ≠ []) ∧
  (filter is_save (trace o) = [] → file (final o) = file s) ∧
  (res (get_recent_reviews app_id days E s) = Return [] →
     res o = Return [] ∧ filter is_store (trace o) = [] ∧ final o = s).
Proof.
  intros o. destruct (process_reviews_spec app_id days E s) as (_ & H). fold o in H.
  rewrite (filter_save_store (trace o)).
  assert (res o = Return [] ∧ final o = s ∧ filter is_store (trace o) = [] ∨
          res o = Return [] ∧ final o = s ∧ filter is_store (trace o) = [StoreLoad] →
          (length (filter is_save (filter is_store (trace o))) ≤ 1)%nat ∧
          (filter is_save (filter is_store (trace o)) ≠ [] →
             ∃ R P, res (get_recent_reviews app_id days E s) = Return R ∧
                    res (load_processed_reviews E s) = Return P ∧
                    fresh (list_to_set (review_ids P)) R ≠ []) ∧
          (filter is_save (filter is_store (trace o)) = [] → file (final o) = file s) ∧
          res o = Return [] ∧ final o = s) as Hidle.
  { intros [(Hres & Hfin & Hst)|(Hres & Hfin & Hst)]; rewrite Hst, Hfin;
      (split_and!; [simpl; lia|done|done|done|done]). }
  destruct (res (get_recent_reviews app_id days E s)) as [[|r R]|e] eqn:HR.
  - destruct (Hidle (or_introl H)) as (? & ? & ? & ? & ?).
    split_and!; [done..|]. intros _. by destruct H as (? & ? & ?).
  - destruct (res (load_processed_reviews E s)) as [P|e] eqn:HP.
    + simpl in H. destruct (fresh _ (r :: R)) as [|n new] eqn:Hnew.
      * destruct (Hidle (or_intror H)) as (? & ? & ? & ? & ?). by split_and!.
      * destruct H as (Hst & H). rewrite Hst. split_and!; [simpl; lia| |done|done].
        intros _. exists (r :: R), P. by rewrite Hnew.
    + destruct (Hidle (or_intror H)) as (? & ? & ? & ? & ?). by split_and!.
  - destruct (Hidle (or_introl H)) as (? & ? & ? & ? & ?). by split_and!.
Qed.

(** An empty fetch: nothing is returned and the store is not touched. *)
Lemma process_reviews_store_writes_witness :
  let o := process_reviews Sample.app_id 1 (Sample.E []) Sample.s1 in
  res o = Return [] ∧ filter is_store (trace o) = [] ∧ final o = Sample.s1.
Proof.
  apply (process_reviews_store_writes Sample.app_id 1 (Sample.E []) Sample.s1).
  vm_compute; reflexivity.
Defined.

(** C10. The reviews returned by [process_reviews] have pairwise distinct
    ids, and each of them is the first record of the fetch result with its
    id. *)
Theorem process_reviews_distinct_ids app_id days E s :
  ∃ new,
    res (process_reviews app_id days E s) = Return new ∧
    NoDup (review_id <$> new) ∧
    ∀ R r, res (get_recent_reviews app_id days E s) = Return R → r ∈ new →
      ∃ l1 l2, R = l1 ++ r :: l2 ∧ review_id r ∉ review_id <$> l1.
Proof.
  destruct (process_reviews_spec app_id days E s) as (_ & H).
  assert (∀ R, res (get_recent_reviews app_id days E s) = Return R →
               res (process_reviews app_id days E s) = Return [] →
               ∃ new, res (process_reviews app_id days E s) = Return new ∧
                 NoDup (review_id <$> new) ∧
                 ∀ R r, res (get_recent_reviews app_id days E s) = Return R → r ∈ new →
                 ∃ l1 l2, R = l1 ++ r :: l2 ∧ review_id r ∉ review_id <$> l1) as Hnil.
  { intros R _ ->. exists []. split_and!; [done|constructor|by intros ?? _ ?%elem_of_nil]. }
  destruct (res (get_recent_reviews app_id days E s)) as [[|r R]|e] eqn:HR.
  - destruct H as (H & _). by apply (Hnil []).
  - destruct (res (load_processed_reviews E s)) as [P|e] eqn:HP.
    + simpl in H. destruct (fresh _ (r :: R)) as [|n new] eqn:Hnew.
      * destruct H as (H & _). by apply (Hnil (r :: R)).
      * destruct H as (_ & H). destruct (can_write E).
        -- destruct H as (H & _). eexists. split; [done|]. split.
           ++ rewrite <- Hnew. apply fresh_NoDup.
           ++ intros R' r' [= <-]. rewrite <- Hnew. apply fresh_first.
        -- destruct H as (H & _). by apply (Hnil (r :: R)).
    + destruct H as (H & _). by apply (Hnil (r :: R)).
  - destruct H as (-> & _). exists []. split_and!; [done|constructor|done].
Qed.

(** The second record with id [r1] is not returned. *)
Lemma process_reviews_distinct_ids_witness :
  res (process_reviews Sample.app_id 1 (Sample.E [Sample.item1; Sample.item1'; Sample.item2])
         Sample.s0)
  = Return [Sample.r1; Sample.r2] ∧
  ∃ new,
    res (process_reviews Sample.app_id 1
           (Sample.E [Sample.item1; Sample.item1'; Sample.item2]) Sample.s0) = Return new ∧
    NoDup (review_id <$> new).
Proof.
  split; [vm_compute; reflexivity|].
  destruct (process_reviews_distinct_ids Sample.app_id 1
              (Sample.E [Sample.item1; Sample.item1'; Sample.item2]) Sample.s0)
    as (new & Hres & Hnd & _).
  exists new. split; assumption.
Defined.


(* ===================================================================== *)
(** ** Proofs: the notifier *)
(* ===================================================================== *)

(** The star line of a review whose rating can be repeated, and the
    exception of one whose rating cannot. *)
Lemma repeat_star_stars E r :
  has_star_line E r = true →
  repeat_star (str_capacity E) (default (VInt 0) (rating r))
  = Return (stars (default (VInt 0) (rating r))).
Proof.
  unfold has_star_line, repeat_star, stars.
  destruct (default (VInt 0) (rating r)); try done.
  intros [H1 H2]%bool_decide_eq_true.
  by rewrite !bool_decide_eq_true_2.
Qed.

Lemma repeat_star_int E r :
  has_star_line E r = true →
  ∃ stars, repeat_star (str_capacity E) (default (VInt 0) (rating r)) = Return stars ∧
           message_lines stars r = message_text r.
Proof. intros H. rewrite (repeat_star_stars E r H). eauto. Qed.

Lemma repeat_star_not_int E r :
  has_star_line E r = false →
  ∃ e, repeat_star (str_capacity E) (default (VInt 0) (rating r)) = Raise e ∧
       star_error (exn_cls e) = true.
Proof.
  unfold has_star_line, repeat_star.
  destruct (default (VInt 0) (rating r)) as [?|n|?| | | |]; try done;
    try (intros _; eexists; split; [reflexivity|reflexivity]).
  intros H%bool_decide_eq_false.
  case_bool_decide; [|eauto]. case_bool_decide; [|eauto]. by destruct H.
Qed.

(** A rating that is not an integer raises [TypeError]. *)
Lemma repeat_star_type_error capacity v :
  is_int v = false →
  repeat_star capacity v
  = Raise (Exn TypeError
             (lit "can't multiply sequence by non-int of type '" ++ type_name v ++ lit "'")).
Proof. by destruct v. Qed.


Local Opaque message_text message_lines repeat_star.

Lemma send_loop_ok url ch reviews E s :
  Forall (fun r => has_star_line E r = true) reviews →
  (∀ k, (k < length reviews)%nat → ok_reply (webhook_reply E (posted s + k)%nat) = true) →
  let o := send_loop url ch reviews E s in
  res o = Return tt ∧ final o = State (file s) (posted s + length reviews)%nat ∧
  filter is_post (trace o) = attempts url ch reviews.
Proof.
  intros Hint. revert s. induction Hint as [|r rest Hr _ IH]; intros s Hok; simpl.
  { rewrite Nat.add_0_r. by destruct s. }
  destruct (repeat_star_int E r Hr) as (stars & Hst & Htext).
  munfold. unfold post. rewrite Hst. simpl. rewrite Htext.
  pose proof (Hok 0%nat ltac:(simpl; lia)) as H0. rewrite Nat.add_0_r in H0.
  destruct (webhook_reply E (posted s)) as [msg|st txt]; [done|]. simpl in H0.
  apply bool_decide_eq_true in H0 as ->. simpl.
  specialize (IH (State (file s) (S (posted s)))). simpl in IH.
  destruct (send_loop url ch rest E _) as [ro so to]. simpl in *.
  destruct IH as (-> & -> & Ht).
  { intros k Hk. specialize (Hok (S k) ltac:(lia)).
    by rewrite Nat.add_succ_r in Hok. }
  split_and!; [done|f_equal; lia|].
  rewrite !filter_cons. simpl. by rewrite Ht.
Qed.

Lemma send_loop_fail url ch pre r rest E s :
  Forall (fun r => has_star_line E r = true) (pre ++ [r]) →
  (∀ k, (k < length pre)%nat → ok_reply (webhook_reply E (posted s + k)%nat) = true) →
  ok_reply (webhook_reply E (posted s + length pre)%nat) = false →
  let o := send_loop url ch (pre ++ r :: rest) E s in
  (∃ e, res o = Raise e) ∧
  final o = State (file s) (posted s + length pre + 1)%nat ∧
  filter is_post (trace o) = attempts url ch (pre ++ [r]).
Proof.
  revert s. induction pre as [|p pre IH]; intros s Hint Hok Hbad; simpl.
  - apply Forall_cons in Hint as [Hr _].
    destruct (repeat_star_int E r Hr) as (stars & Hst & Htext).
    munfold. unfold post. rewrite Hst. simpl. rewrite Htext.
    rewrite Nat.add_0_r in Hbad.
    destruct (webhook_reply E (posted s)) as [msg|st txt]; simpl in *.
    + split_and!; [eauto|f_equal; lia|done].
    + apply bool_decide_eq_false in Hbad.
      rewrite bool_decide_eq_true_2 by done. simpl.
      split_and!; [eauto|f_equal; lia|done].
  - simpl in Hint. apply Forall_cons in Hint as [Hp Hint].
    destruct (repeat_star_int E p Hp) as (stars & Hst & Htext).
    munfold. unfold post. rewrite Hst. simpl. rewrite Htext.
    pose proof (Hok 0%nat ltac:(simpl; lia)) as H0. rewrite Nat.add_0_r in H0.
    destruct (webhook_reply E (posted s)) as [msg|st txt]; [done|]. simpl in H0.
    apply bool_decide_eq_true in H0 as ->. simpl.
    specialize (IH (State (file s) (S (posted s))) Hint). simpl in IH.
    destruct (send_loop url ch (pre ++ r :: rest) E _) as [ro so to]. simpl in *.
    destruct IH as ([e ->] & -> & Ht).
    { intros k Hk. specialize (Hok (S k) ltac:(lia)).
      by rewrite Nat.add_succ_r in Hok. }
    { by rewrite Nat.add_succ_r in Hbad. }
    split_and!; [eauto|f_equal; lia|].
    rewrite !filter_cons. simpl. by rewrite Ht.
Qed.

Lemma send_loop_raises url ch reviews E s e :
  res (send_loop url ch reviews E s) = Raise e →
  exn_cls e = SlackError ∨ exn_cls e = RequestException ∨ star_error (exn_cls e) = true.
Proof.
  revert s. induction reviews as [|r rest IH]; intros s; simpl; [done|].
  destruct (has_star_line E r) eqn:Hr.
  2:{ destruct (repeat_star_not_int E r Hr) as (e0 & He0 & Hc).
      munfold. rewrite He0. simpl. intros [= <-]. auto. }
  destruct (repeat_star_int E r Hr) as (stars & Hst & Htext).
  munfold. unfold post. rewrite Hst. simpl.
  destruct (webhook_reply E (posted s)) as [msg|st txt]; simpl.
  - intros [= <-]. auto.
  - case_bool_decide; simpl.
    + intros [= <-]. by left.
    + specialize (IH (State (file s) (S (posted s)))).
      destruct (send_loop url ch rest E _) as [[]]; simpl in *; [done|].
      intros [= <-]. by apply IH.
Qed.

Local Opaque send_loop.

Lemma send_slack_notification_cons url ch r reviews E s :
  send_slack_notification url (r :: reviews) ch E s
  = try (send_loop url ch (r :: reviews))
        (orelse (except SlackError reraise)
                (except Exception (fun e =>
                   raise SlackError (lit "Error sending notification: " ++ exn_msg e))))
        E s.
Proof. done. Qed.

(** When every message can be built and every call is accepted there is one
    delivery call per review, in order, and the notifier returns. *)
Lemma send_slack_notification_all_ok url ch reviews E s :
  Forall (fun r => has_star_line E r = true) reviews →
  (∀ k, (k < length reviews)%nat → ok_reply (webhook_reply E (posted s + k)%nat) = true) →
  let o := send_slack_notification url reviews ch E s in
  res o = Return tt ∧ filter is_post (trace o) = attempts url ch reviews.
Proof.
  intros Hint Hok. destruct reviews as [|r reviews]; [done|].
  rewrite send_slack_notification_cons. unfold try.
  destruct (send_loop_ok url ch (r :: reviews) E s Hint Hok) as (Hr & _ & Ht).
  destruct (send_loop url ch (r :: reviews) E s) as [ro so to]. simpl in *. by subst.
Qed.

(** C4 (as stated, refuted): three reviews, the second delivery call is
    rejected; the third review is never attempted and the notifier raises. *)
Lemma send_slack_notification_stops_at_failure :
  let o := send_slack_notification Sample.webhook_url
             [Sample.r1; Sample.r2; Sample.r3] Sample.channel
             Sample.E_second_fails Sample.s0 in
  ok_reply (webhook_reply Sample.E_second_fails 0) = true ∧
  ok_reply (webhook_reply Sample.E_second_fails 1) = false ∧
  ok_reply (webhook_reply Sample.E_second_fails 2) = true ∧
  filter is_post (trace o)
  = attempts Sample.webhook_url Sample.channel [Sample.r1; Sample.r2] ∧
  (HttpPost Sample.webhook_url (message_text Sample.r3) Sample.channel ∉ trace o) ∧
  res o = Raise (Exn SlackError (lit "Failed to send notification: server_error")).
Proof.
  vm_compute. split_and!; [done..| |done].
  intros H. repeat (apply elem_of_cons in H as [H|H]; [discriminate H|]).
  by apply elem_of_nil in H.
Qed.

(** C4 (amended): the delivery loop stops at the first call that fails. For
    reviews whose star line can be built (the rating is absent, or an
    integer that the star can be repeated by), the reviews before the
    failing call were each delivered by one call, the failing call is the
    last one made, the reviews after it are not attempted, and the notifier
    raises [SlackError]. *)
Theorem send_slack_notification_fail_fast url ch pre r rest E s :
  Forall (fun r => has_star_line E r = true) (pre ++ [r]) →
  (∀ k, (k < length pre)%nat → ok_reply (webhook_reply E (posted s + k)%nat) = true) →
  ok_reply (webhook_reply E (posted s + length pre)%nat) = false →
  let o := send_slack_notification url (pre ++ r :: rest) ch E s in
  (∃ msg, res o = Raise (Exn SlackError msg)) ∧
  filter is_post (trace o) = attempts url ch (pre ++ [r]) ∧
  posted (final o) = (posted s + length pre + 1)%nat.
Proof.
  intros Hint Hok Hbad o.
  assert (∃ x l, pre ++ r :: rest = x :: l) as (x & l & Hl) by (destruct pre; simpl; eauto).
  subst o. destruct (send_loop_fail url ch pre r rest E s Hint Hok Hbad) as ([e He] & Hf & Ht).
  pose proof (send_loop_raises url ch (pre ++ r :: rest) E s e He) as Hcls.
  rewrite Hl in *. rewrite send_slack_notification_cons. unfold try.
  destruct (send_loop url ch (x :: l) E s) as [ro so to]. simpl in *. subst ro so.
  destruct e as [c msg]. simpl in Hcls.
  destruct Hcls as [-> | [-> | Hc]]; [..|destruct c; try done];
    simpl; rewrite app_nil_r; eauto.
Qed.

(** Three reviews with the second call rejected: two calls are made and
    [SlackError] is raised. *)
Lemma send_slack_notification_fail_fast_witness :
  let o := send_slack_notification Sample.webhook_url
             ([Sample.r1] ++ Sample.r2 :: [Sample.r3]) Sample.channel
             Sample.E_second_fails Sample.s0 in
  (∃ msg, res o = Raise (Exn SlackError msg)) ∧
  filter is_post (trace o)
  = attempts Sample.webhook_url Sample.channel ([Sample.r1] ++ [Sample.r2]) ∧
  posted (final o) = 2%nat.
Proof.
  apply (send_slack_notification_fail_fast Sample.webhook_url Sample.channel
           [Sample.r1] Sample.r2 [Sample.r3] Sample.E_second_fails Sample.s0).
  - repeat constructor.
  - intros k Hk. simpl in Hk. destruct k as [|k]; [reflexivity|lia].
  - reflexivity.
Defined.

Local Transparent message_text message_lines repeat_star.

(** The message is at least as long as the review body it embeds. *)
Lemma message_text_length_body r b :
  body r = Some (VStr b) → (length b ≤ length (message_text r))%nat.
Proof.
  intros Hb. unfold message_text, message_lines. rewrite Hb. rewrite !length_app. simpl. lia.
Qed.

(** [truncate_string] keeps a text within [max_length] once there is room
    for the ellipsis. *)
Lemma truncate_string_length text max_length :
  3 ≤ max_length →
  Z.of_nat (length (truncate_string text max_length)) ≤ max_length.
Proof.
  intros Hmax. unfold truncate_string. destruct text as [|c text]; [simpl; lia|].
  destruct (Z.leb_spec (Z.of_nat (length (c :: text))) max_length) as [Hle|Hgt]; [done|].
  unfold slice_to. rewrite (proj2 (Z.leb_le 0 (max_length - 3))) by lia.
  rewrite length_app, length_take. change (length (lit "...")) with 3%nat. lia.
Qed.

(** C5 (what the code does): the message of a review with a 5000-character
    body is longer than 4000 characters and does not end in an ellipsis; it
    is sent as it is, in one delivery call. *)
Theorem message_text_not_capped :
  let o := send_slack_notification Sample.webhook_url [Sample.long_review]
             Sample.channel (Sample.E []) Sample.s0 in
  (∃ b, body Sample.long_review = Some (VStr b) ∧ Z.of_nat (length b) = 5000) ∧
  Z.of_nat (length (message_text Sample.long_review)) = 5113 ∧
  4000 < Z.of_nat (length (message_text Sample.long_review)) ∧
  endswith (message_text Sample.long_review) (lit "...") = false ∧
  res o = Return tt ∧
  filter is_post (trace o)
  = [HttpPost Sample.webhook_url (message_text Sample.long_review) Sample.channel].
Proof.
  split_and!.
  - eexists. split; [reflexivity|]. vm_compute. reflexivity.
  - vm_compute. reflexivity.
  - vm_compute. reflexivity.
  - vm_compute. reflexivity.
  - vm_compute. reflexivity.
  - vm_compute. reflexivity.
Qed.

(* ===================================================================== *)
(** ** More on utils.py: truncate_string *)
(* ===================================================================== *)

Lemma length_ellipsis : length (lit "...") = 3%nat.
Proof. vm_compute. reflexivity. Qed.

Lemma truncate_string_short text max_length :
  Z.of_nat (length text) ≤ max_length → truncate_string text max_length = text.
Proof.
  intros Hle. unfold truncate_string. destruct text as [|c text]; [done|].
  by rewrite (proj2 (Z.leb_le _ _) Hle).
Qed.

Lemma truncate_string_long text max_length :
  text ≠ [] → max_length < Z.of_nat (length text) →
  truncate_string text max_length = slice_to (max_length - 3) text ++ lit "...".
Proof.
  intros Hne Hlt. unfold truncate_string. destruct text as [|c text]; [done|].
  by rewrite (proj2 (Z.leb_gt _ _) Hlt).
Qed.

(** X1. With room for the ellipsis ([max_length >= 3]) the result is never
    longer than [max_length]; a text that fits is returned unchanged, and a
    longer one becomes its first [max_length - 3] characters followed by
    "...", which is exactly [max_length] characters. *)
Theorem truncate_string_bounded text max_length :
  3 ≤ max_length →
  let r := truncate_string text max_length in
  Z.of_nat (length r) ≤ max_length ∧
  (Z.of_nat (length text) ≤ max_length → r = text) ∧
  (max_length < Z.of_nat (length text) →
     r = take (Z.to_nat (max_length - 3)) text ++ lit "..." ∧
     Z.of_nat (length r) = max_length ∧
     endswith r (lit "...") = true).
Proof.
  intros Hmax r. subst r.
  destruct (Z.le_gt_cases (Z.of_nat (length text)) max_length) as [Hle|Hgt].
  - rewrite truncate_string_short by done. split_and!; [done|done|lia].
  - assert (text ≠ []) by (intros ->; simpl in Hgt; lia).
    rewrite truncate_string_long by (done || lia). unfold slice_to.
    rewrite (proj2 (Z.leb_le 0 (max_length - 3))) by lia.
    assert (Z.of_nat (length (take (Z.to_nat (max_length - 3)) text ++ lit "..."))
            = max_length) as Hlen.
    { rewrite length_app, length_take, length_ellipsis. lia. }
    split_and!; [lia|lia|]. intros _. split_and!; [done|done|].
    unfold endswith. apply bool_decide_eq_true.
    rewrite length_app, length_ellipsis, Nat.add_sub, drop_app_length. done.
Qed.

Lemma truncate_string_bounded_witness :
  truncate_string (lit "This is a very long string") 20 = lit "This is a very lo...".
Proof.
  destruct (truncate_string_bounded (lit "This is a very long string") 20) as (_ & _ & H).
  - vm_compute. discriminate.
  - destruct H as (H & _); [vm_compute; reflexivity|]. rewrite H. vm_compute. reflexivity.
Defined.

(** X2. Truncating twice with the same [max_length >= 3] is truncating
    once. *)
Theorem truncate_string_idempotent text max_length :
  3 ≤ max_length →
  truncate_string (truncate_string text max_length) max_length
  = truncate_string text max_length.
Proof.
  intros Hmax. apply truncate_string_short.
  destruct (Z.le_gt_cases (Z.of_nat (length text)) max_length) as [Hle|Hgt].
  - by rewrite truncate_string_short.
  - assert (text ≠ []) by (intros ->; simpl in Hgt; lia).
    rewrite truncate_string_long by (done || lia). unfold slice_to.
    rewrite (proj2 (Z.leb_le 0 (max_length - 3))) by lia.
    rewrite length_app, length_take, length_ellipsis. lia.
Qed.

Lemma truncate_string_idempotent_witness :
  truncate_string (truncate_string (lit "This is a very long string") 20) 20
  = truncate_string (lit "This is a very long string") 20.
Proof. apply truncate_string_idempotent. lia. Defined.

(** X3. Without room for the ellipsis ([max_length < 3]) a non-empty text
    longer than [max_length] comes back longer than [max_length]: the result
    still ends in "..." and is at least three characters long. *)
Theorem truncate_string_small_max text max_length :
  text ≠ [] → max_length < 3 → max_length < Z.of_nat (length text) →
  let r := truncate_string text max_length in
  max_length < Z.of_nat (length r) ∧ (3 ≤ length r)%nat ∧
  endswith r (lit "...") = true.
Proof.
  intros Hne Hmax Hlen r. subst r. rewrite truncate_string_long by done.
  rewrite length_app, length_ellipsis. split_and!; [lia|lia|].
  unfold endswith. apply bool_decide_eq_true.
  rewrite length_app, length_ellipsis, Nat.add_sub, drop_app_length. done.
Qed.

Lemma truncate_string_small_max_witness :
  truncate_string (lit "abcdef") 2 = lit "abcde..." ∧
  2 < Z.of_nat (length (truncate_string (lit "abcdef") 2)).
Proof.
  split; [vm_compute; reflexivity|].
  apply (truncate_string_small_max (lit "abcdef") 2);
    [vm_compute; discriminate|lia|vm_compute; reflexivity].
Defined.

(* ===================================================================== *)
(** ** More on utils.py: sanitize_string *)
(* ===================================================================== *)

Lemma rstrip_snoc s c :
  rstrip (s ++ [c]) = if isspace c then rstrip s else s ++ [c].
Proof.
  unfold rstrip. rewrite reverse_snoc. simpl.
  destruct (isspace c); [done|]. by rewrite reverse_cons, reverse_involutive.
Qed.

Lemma rstrip_rec_snoc s c :
  rstrip_rec (s ++ [c]) = if isspace c then rstrip_rec s else s ++ [c].
Proof.
  induction s as [|a s IH]; simpl.
  - by destruct (isspace c).
  - rewrite IH. destruct (isspace c).
    + done.
    + by destruct (s ++ [c]) eqn:E; [destruct s; discriminate|].
Qed.

Lemma rstrip_rstrip_rec s : rstrip s = rstrip_rec s.
Proof.
  induction s as [|c s IH] using rev_ind; [done|].
  by rewrite rstrip_snoc, rstrip_rec_snoc, IH.
Qed.

Lemma isspace_32 : isspace 32 = true.
Proof. reflexivity. Qed.

Lemma is_newline_tab_isspace c : is_newline_tab c = true → isspace c = true ∧ c ≠ 32%N.
Proof.
  unfold is_newline_tab. rewrite !orb_true_iff, !N.eqb_eq. by intros [[->| ->]| ->].
Qed.

Lemma sub_runs_head class c rest :
  class c = false → sub_runs class (c :: rest) = c :: sub_runs class rest.
Proof. intros H. simpl. by rewrite H. Qed.

Lemma collapsed_space_cons c l :
  isspace c = false → collapsed (32%N :: c :: l) = collapsed (c :: l).
Proof. intros Hc. cbn [collapsed]. by rewrite isspace_32, Hc. Qed.

Lemma sub_runs_collapsed s : collapsed (sub_runs isspace s) = true.
Proof.
  induction s as [|c rest IH]; [done|]. cbn [sub_runs].
  destruct (isspace c) eqn:Hc.
  - destruct rest as [|c' r]; [done|].
    destruct (isspace c') eqn:Hc'; [done|].
    rewrite sub_runs_head in * by done. by rewrite collapsed_space_cons.
  - cbn [collapsed]. by rewrite Hc.
Qed.

Lemma sub_runs_id class s :
  Forall (fun c => class c = false) s → sub_runs class s = s.
Proof.
  induction 1 as [|c rest Hc _ IH]; [done|]. by rewrite sub_runs_head, IH.
Qed.

Lemma sub_runs_single_spaced s : single_spaced s = true → sub_runs isspace s = s.
Proof.
  induction s as [|c rest IH]; [done|]. cbn [single_spaced sub_runs].
  intros [Hc Hrest]%andb_true_iff. rewrite IH by done.
  destruct (isspace c); [|done].
  apply andb_true_iff in Hc as [->%N.eqb_eq Hnext].
  destruct rest as [|c' r]; [done|]. by apply negb_true_iff in Hnext as ->.
Qed.

Lemma single_spaced_no_newline_tab s :
  single_spaced s = true → Forall (fun c => is_newline_tab c = false) s.
Proof.
  induction s as [|c rest IH]; [constructor|]. cbn [single_spaced].
  intros [Hc Hrest]%andb_true_iff. constructor; [|by apply IH].
  destruct (is_newline_tab c) eqn:Hnt; [|done].
  apply is_newline_tab_isspace in Hnt as [Hsp Hne]. rewrite Hsp in Hc.
  by apply andb_true_iff in Hc as [?%N.eqb_eq _].
Qed.

Lemma lstrip_collapsed s : collapsed s = true → collapsed (lstrip s) = true.
Proof.
  induction s as [|c rest IH]; [done|]. cbn [lstrip].
  destruct (isspace c); [|done]. cbn [collapsed].
  intros [_ ?]%andb_true_iff. by apply IH.
Qed.

Lemma lstrip_head s :
  match lstrip s with [] => True | c :: _ => isspace c = false end.
Proof.
  induction s as [|c rest IH]; [done|]. cbn [lstrip].
  by destruct (isspace c) eqn:Hc.
Qed.

Lemma rstrip_rec_head c rest :
  isspace c = false → ∃ r, rstrip_rec (c :: rest) = c :: r.
Proof. intros Hc. simpl. rewrite Hc. destruct (rstrip_rec rest); eauto. Qed.

Lemma single_spaced_cons c a r :
  single_spaced (c :: a :: r)
  = (if isspace c then (c =? 32)%N && negb (isspace a) else true)
    && single_spaced (a :: r).
Proof. done. Qed.

Lemma rstrip_rec_single_spaced s : collapsed s = true → single_spaced (rstrip_rec s) = true.
Proof.
  induction s as [|c rest IH]; [done|]. cbn [collapsed].
  intros [Hc Hrest]%andb_true_iff. specialize (IH Hrest). cbn [rstrip_rec].
  destruct (rstrip_rec rest) as [|a r] eqn:Hr.
  - destruct (isspace c) eqn:Hsp; [done|]. simpl. by rewrite Hsp.
  - rewrite single_spaced_cons, IH, andb_true_r.
    destruct (isspace c) eqn:Hsp; [|done].
    apply andb_true_iff in Hc as [-> Hnext]. simpl.
    destruct rest as [|c' rest']; [done|].
    apply negb_true_iff in Hnext.
    destruct (rstrip_rec_head c' rest' Hnext) as [r' Hr']. rewrite Hr' in Hr.
    injection Hr as <- _. by rewrite Hnext.
Qed.

Lemma rstrip_rec_id s : single_spaced s = true → rstrip_rec s = s.
Proof.
  induction s as [|c rest IH]; [done|]. cbn [single_spaced rstrip_rec].
  intros [Hc Hrest]%andb_true_iff. rewrite IH by done.
  destruct rest as [|c' r]; [|done].
  destruct (isspace c); [|done]. by rewrite andb_false_r in Hc.
Qed.

Lemma lstrip_id c rest : isspace c = false → lstrip (c :: rest) = c :: rest.
Proof. intros Hc. simpl. by rewrite Hc. Qed.

Lemma strip_sanitized s : collapsed s = true → sanitized (strip s) = true.
Proof.
  intros Hs. unfold strip. rewrite rstrip_rstrip_rec.
  pose proof (lstrip_collapsed s Hs) as Hl. pose proof (lstrip_head s) as Hh.
  pose proof (rstrip_rec_single_spaced _ Hl) as Hr.
  destruct (lstrip s) as [|c rest]; [done|].
  destruct (rstrip_rec_head c rest Hh) as [r Heq]. rewrite Heq in *.
  unfold sanitized. by rewrite Hh, Hr.
Qed.

Lemma sanitized_fixed s : sanitized s = true → sanitize_string (Some s) = s.
Proof.
  destruct s as [|c rest]; [done|]. unfold sanitized.
  intros [Hc Hs]%andb_true_iff. apply negb_true_iff in Hc.
  unfold sanitize_string, strip.
  rewrite (sub_runs_id is_newline_tab) by (by apply single_spaced_no_newline_tab).
  rewrite sub_runs_single_spaced by done.
  by rewrite lstrip_id, rstrip_rstrip_rec, rstrip_rec_id.
Qed.

Lemma sanitize_string_sanitized text : sanitized (sanitize_string text) = true.
Proof.
  destruct text as [[|c rest]|]; [done| |done].
  unfold sanitize_string. apply strip_sanitized, sub_runs_collapsed.
Qed.

(** X4. The result of [sanitize_string] neither starts nor ends with
    whitespace, its only whitespace characters are spaces (no newline, tab or
    other blank), and no two of them are adjacent. *)
Theorem sanitize_string_shape text :
  let r := sanitize_string text in
  (∀ c, head r = Some c → isspace c = false) ∧
  (∀ c, last r = Some c → isspace c = false) ∧
  (∀ c, c ∈ r → isspace c = true → c = 32%N) ∧
  (∀ i c c', r !! i = Some c → r !! S i = Some c' → isspace c = true → isspace c' = false).
Proof.
  intros r. pose proof (sanitize_string_sanitized text) as Hs. fold r in Hs.
  clearbody r. clear text.
  assert (single_spaced r = true) as Hss.
  { destruct r; [done|]. by apply andb_true_iff in Hs as [_ ?]. }
  split_and!.
  - intros c Hc. destruct r as [|a r]; [done|]. injection Hc as ->.
    apply andb_true_iff in Hs as [Ha _]. by apply negb_true_iff.
  - clear Hs. induction r as [|a r IH]; [done|]. intros c.
    cbn [single_spaced] in Hss. apply andb_true_iff in Hss as [Ha Hr].
    destruct r as [|b r].
    + simpl. intros [= <-]. destruct (isspace a); [|done]. by rewrite andb_false_r in Ha.
    + rewrite last_cons_cons. by apply IH.
  - clear Hs. induction r as [|a r IH]; [by intros ? ?%elem_of_nil|].
    cbn [single_spaced] in Hss. apply andb_true_iff in Hss as [Ha Hr].
    intros c [->|Hc]%elem_of_cons Hsp; [|by apply IH].
    rewrite Hsp in Ha. by apply andb_true_iff in Ha as [?%N.eqb_eq _].
  - clear Hs. induction r as [|a r IH]; [done|].
    cbn [single_spaced] in Hss. apply andb_true_iff in Hss as [Ha Hr].
    intros [|i] c c'; simpl.
    + intros [= <-] Hc' Hsp. rewrite Hsp in Ha.
      apply andb_true_iff in Ha as [_ Hn]. destruct r as [|b r]; [done|].
      injection Hc' as <-. by apply negb_true_iff.
    + by apply IH.
Qed.

(** X5. Sanitising a sanitised string changes nothing. *)
Theorem sanitize_string_idempotent text :
  sanitize_string (Some (sanitize_string text)) = sanitize_string text.
Proof. apply sanitized_fixed, sanitize_string_sanitized. Qed.

Lemma filter_nonspace_sub_runs class s :
  (∀ c, class c = true → isspace c = true) →
  filter (fun c => isspace c = false) (sub_runs class s)
  = filter (fun c => isspace c = false) s.
Proof.
  intros Hsub. induction s as [|c rest IH]; [done|]. cbn [sub_runs].
  destruct (class c) eqn:Hc.
  - rewrite (filter_cons_False _ c) by (by rewrite (Hsub c Hc)).
    destruct rest as [|c' r]; [done|].
    destruct (class c'); [done|].
    rewrite filter_cons_False by (by rewrite isspace_32). done.
  - rewrite !filter_cons, IH. done.
Qed.

Lemma filter_nonspace_lstrip s :
  filter (fun c => isspace c = false) (lstrip s) = filter (fun c => isspace c = false) s.
Proof.
  induction s as [|c rest IH]; [done|]. cbn [lstrip].
  destruct (isspace c) eqn:Hc; [|done].
  by rewrite filter_cons_False by (by rewrite Hc).
Qed.

Lemma filter_nonspace_rstrip_rec s :
  filter (fun c => isspace c = false) (rstrip_rec s) = filter (fun c => isspace c = false) s.
Proof.
  induction s as [|c rest IH]; [done|]. cbn [rstrip_rec].
  destruct (rstrip_rec rest) as [|a r].
  - rewrite filter_cons, <- IH. destruct (isspace c) eqn:Hc; case_decide; try done.
    by rewrite filter_cons_True.
  - by rewrite (filter_cons _ c (a :: r)), IH, filter_cons.
Qed.

(** X6. [sanitize_string] only touches whitespace: the characters that are
    not whitespace come out unchanged and in the same order. *)
Theorem sanitize_string_keeps_text text :
  filter (fun c => isspace c = false) (sanitize_string (Some text))
  = filter (fun c => isspace c = false) text.
Proof.
  destruct text as [|c rest]; [done|]. unfold sanitize_string, strip.
  rewrite rstrip_rstrip_rec, filter_nonspace_rstrip_rec, filter_nonspace_lstrip.
  rewrite (filter_nonspace_sub_runs isspace) by done.
  apply filter_nonspace_sub_runs. intros a Ha. by apply is_newline_tab_isspace.
Qed.

(* ===================================================================== *)
(** ** More on cli.py: get_next_check_time *)
(* ===================================================================== *)

(** X7. Away from the ends of the datetime range, [get_next_check_time]
    returns the first instant not before [current_time] at which the wall
    clock of the zone (at the offset in force at [current_time]) shows 09:00:
    it is at 09:00, it is not before [current_time] and less than a day after
    it (at 09:00 sharp it is [current_time] itself), and no earlier instant
    from [current_time] on is at 09:00. *)
Theorem get_next_check_time_next_nine offset current_time :
  datetime_min + 2 * 86400000000 ≤ current_time ≤ datetime_max - 3 * 86400000000 →
  Z.abs offset ≤ 86400000000 →
  ∃ next_run,
    Cli.get_next_check_time offset current_time = Some next_run ∧
    (next_run + offset) mod 86400000000 = 9 * 3600000000 ∧
    current_time ≤ next_run < current_time + 86400000000 ∧
    (∀ u, current_time ≤ u → (u + offset) mod 86400000000 = 9 * 3600000000 →
          next_run ≤ u).
Proof.
  intros Hrange Hoff. unfold Cli.get_next_check_time, datetime_min, datetime_max in *.
  rewrite bool_decide_eq_true_2 by lia.
  remember (current_time + offset) as L eqn:HLdef.
  assert (∃ q r, L = 86400000000 * q + r ∧ 0 ≤ r < 86400000000 ∧
                 L / 86400000000 = q) as (q & r & HL & Hr & Hq).
  { exists (L / 86400000000), (L mod 86400000000). split; [|split; [|done]].
    - apply Z.div_mod. lia.
    - apply Z.mod_pos_bound. lia. }
  rewrite Hq.
  assert (∀ k, (86400000000 * k + 9 * 3600000000) mod 86400000000 = 9 * 3600000000) as Hmod.
  { intros k. rewrite (Z.mul_comm 86400000000 k), Z.add_comm, Z.mod_add by lia.
    apply Z.mod_small. lia. }
  assert (∀ u, current_time ≤ u → (u + offset) mod 86400000000 = 9 * 3600000000 →
          ∃ k, u + offset = 86400000000 * k + 9 * 3600000000) as Hu.
  { intros u _ Hm. exists ((u + offset) / 86400000000).
    rewrite <- Hm. apply Z.div_mod. lia. }
  destruct (decide (L > q * 86400000000 + 9 * 3600000000)) as [Hlate|Hlate];
    [rewrite (bool_decide_eq_true_2 _ Hlate)|rewrite (bool_decide_eq_false_2 _ Hlate)].
  - eexists. rewrite bool_decide_eq_true_2 by lia. split; [done|]. split_and!.
    + replace (q * 86400000000 + 9 * 3600000000 + 86400000000 - offset + offset)
        with (86400000000 * (q + 1) + 9 * 3600000000) by lia. apply Hmod.
    + lia.
    + lia.
    + intros u Hge Hm. destruct (Hu u Hge Hm) as [k Hk]. nia.
  - eexists. rewrite bool_decide_eq_true_2 by lia. split; [done|]. split_and!.
    + replace (q * 86400000000 + 9 * 3600000000 - offset + offset)
        with (86400000000 * q + 9 * 3600000000) by lia. apply Hmod.
    + lia.
    + lia.
    + intros u Hge Hm. destruct (Hu u Hge Hm) as [k Hk]. nia.
Qed.

(** 2024-01-02 12:00 UTC is 04:00 at UTC-8: the next check is 17:00 UTC the
    same day. *)
Lemma get_next_check_time_next_nine_witness :
  Cli.get_next_check_time (-8 * 3600000000) 1704196800000000 = Some 1704214800000000.
Proof.
  destruct (get_next_check_time_next_nine (-8 * 3600000000) 1704196800000000)
    as (next_run & Heq & _).
  - unfold datetime_min, datetime_max. lia.
  - lia.
  - rewrite Heq. vm_compute in Heq. injection Heq as <-. reflexivity.
Defined.

(* ===================================================================== *)
(** ** More on the review source client *)
(* ===================================================================== *)

Local Transparent get_recent_reviews.

(** X8. [make_api_request] never raises and leaves the state alone. When
    the API client or its token cannot be built it makes no request;
    otherwise it makes exactly one GET request, to the endpoint under the
    API root. It returns the decoded body exactly when the answer has status
    200 and a body that decodes to something other than null; in every other
    case it returns [None], after logging an error unless the answer was a
    200 with the body null. *)
Theorem make_api_request_never_raises endpoint E s :
  let o := make_api_request endpoint E s in
  final o = s ∧
  filter is_get (trace o)
  = match api_reply E with
    | ClientRaises _ => []
    | _ => [HttpGet (lit "https://api.appstoreconnect.apple.com" ++ lit "/" ++ endpoint)]
    end ∧
  ∃ response,
    res o = Return response ∧
    (∀ j, response = Some j ↔
          j ≠ JNull ∧ ∃ txt, api_reply E = GetReply 200 txt (Some j)) ∧
    (response = None →
       (∃ txt, api_reply E = GetReply 200 txt (Some JNull)) ∨
       ∃ msg, Log ERROR msg ∈ trace o).
Proof.
  unfold make_api_request. munfold. simpl.
  destruct (api_reply E) as [msg|msg|status_code txt [j|]]; simpl;
    [| |case_bool_decide as Hst; simpl; [|destruct j as [d o| |b]; simpl]
     |case_bool_decide as Hst; simpl].
  all: split; [done|]; split; [done|]; eexists; split; [done|]; split.
  all: try (intros j'; split; [intros ?|intros [? [t ?]]]; by simplify_eq).
  all: try (intros _; right; eexists; left).
  all: try (intros _; right; eexists; do 2 right; left).
  all: try (intros _; right; eexists; do 3 right; left).
  all: try done.
  all: subst status_code.
  - intros j'. split; [intros [= <-]; split; [done|eauto]|].
    intros [_ [t ?]]. by simplify_eq.
  - intros _. left. eauto.
  - intros j'. split; [intros [= <-]; split; [done|eauto]|].
    intros [_ [t ?]]. by simplify_eq.
Qed.

Lemma make_api_request_never_raises_witness :
  let o := make_api_request (lit "v1/apps/1/customerReviews") Sample2.E_no_client Sample.s0 in
  res o = Return None ∧ filter is_get (trace o) = [] ∧ final o = Sample.s0.
Proof.
  destruct (make_api_request_never_raises (lit "v1/apps/1/customerReviews")
              Sample2.E_no_client Sample.s0) as (Hf & Hg & _).
  split_and!; [vm_compute; reflexivity|exact Hg|exact Hf].
Defined.

(** What the date filter raises is a [TypeError] or an [AttributeError]. *)
Lemma date_error_class E r e :
  date_error E r = Some e → exn_cls e = TypeError ∨ exn_cls e = AttributeError.
Proof.
  unfold date_error. destruct (date r) as [[d| | | | | |]|]; try done;
    try (intros [= <-]; by right).
  destruct (fromisoformat E _); try done. intros [= <-]. by left.
Qed.

Lemma first_date_error_elem E reviews e :
  first_date_error E reviews = Some e → ∃ r, r ∈ reviews ∧ date_error E r = Some e.
Proof.
  induction reviews as [|r rest IH]; [done|]. rewrite first_date_error_cons.
  destruct (date_error E r) as [e'|] eqn:He.
  - intros [= ->]. exists r. split; [left|done].
  - intros (r' & Hr' & He')%IH. exists r'. split; [by right|done].
Qed.

Lemma first_date_error_class E reviews e :
  first_date_error E reviews = Some e →
  exn_cls e = TypeError ∨ exn_cls e = AttributeError.
Proof. intros (r & _ & He)%first_date_error_elem. by eapply date_error_class. Qed.

Lemma first_date_error_str E reviews e :
  first_date_error E reviews = Some e →
  Forall (fun r => date_is_str r = true) reviews →
  exn_msg e = lit "can't compare offset-naive and offset-aware datetimes".
Proof.
  intros (r & Hr & He)%first_date_error_elem Hstr.
  rewrite Forall_forall in Hstr. specialize (Hstr r Hr).
  unfold date_error in He. unfold date_is_str in Hstr.
  destruct (date r) as [[d| | | | | |]|]; try done.
  destruct (fromisoformat E _); try done. by injection He as <-.
Qed.

(** The fetch with the credentials set, a lookback in range and an answer
    200 that carries a [data] array. *)
Lemma get_recent_reviews_data app_id days E s txt data other :
  all_set [KEY_ID E; PRIVATE_KEY E; ISSUER_ID E] = true →
  Z.abs days ≤ 999999999 →
  datetime_min ≤ now_utc E - days * 86400000000 ≤ datetime_max →
  api_reply E = GetReply 200 txt (Some (JObject (Some data) other)) →
  res (get_recent_reviews app_id days E s)
  = match first_date_error E (omap review_of_item data) with
    | None =>
        Return (filter (fun r => keeps E (window_start E days) (now_utc E) r = true)
                  (omap review_of_item data))
    | Some e => Raise (Exn APIError (lit "Error fetching reviews: " ++ exn_msg e))
    end.
Proof.
  intros Hcred Hdays Hrange Hreply.
  unfold get_recent_reviews, make_api_request, timedelta_days, datetime_sub, window_start.
  munfold. simpl.
  rewrite !bool_decide_eq_true_2 by done. simpl.
  change (match KEY_ID E with
          | Some (_ :: _) => true
          | _ => false
          end && (match PRIVATE_KEY E with
                  | Some (_ :: _) => true
                  | _ => false
                  end && (match ISSUER_ID E with
                          | Some (_ :: _) => true
                          | _ => false
                          end && true)))
    with (all_set [KEY_ID E; PRIVATE_KEY E; ISSUER_ID E]).
  rewrite Hcred. simpl. rewrite Hreply. simpl.
  destruct (filter_by_date_frame E s (now_utc E - days * 86400000000) (now_utc E)
              (omap review_of_item data) []) as [Hf Ht].
  pose proof (filter_by_date_res E s (now_utc E - days * 86400000000) (now_utc E)
              (omap review_of_item data) []) as Hr.
  destruct (filter_by_date _ _ _ _ E s) as [rf sf tf]. simpl in *. subst.
  destruct (first_date_error E _) as [e|] eqn:He; simpl; [|done].
  by destruct (first_date_error_class _ _ _ He) as [-> | ->].
Qed.



(** X10. One record whose date parses without a UTC offset fails the whole
    fetch, whatever the other records are: the fetch raises [APIError] with
    a message that starts with "Error fetching reviews: ". When the dates of
    all records are strings (or absent) the rest of the message is that of
    the [TypeError] of the date comparison. *)
Theorem get_recent_reviews_naive_date app_id days E s txt data other r :
  all_set [KEY_ID E; PRIVATE_KEY E; ISSUER_ID E] = true →
  Z.abs days ≤ 999999999 →
  datetime_min ≤ now_utc E - days * 86400000000 ≤ datetime_max →
  api_reply E = GetReply 200 txt (Some (JObject (Some data) other)) →
  r ∈ omap review_of_item data → naive E r = true →
  ∃ msg,
    res (get_recent_reviews app_id days E s)
    = Raise (Exn APIError (lit "Error fetching reviews: " ++ msg)) ∧
    (Forall (fun r => date_is_str r = true) (omap review_of_item data) →
     msg = lit "can't compare offset-naive and offset-aware datetimes").
Proof.
  intros Hcred Hdays Hrange Hreply Hr Hnaive.
  rewrite (get_recent_reviews_data app_id days E s txt data other) by done.
  destruct (first_date_error E _) as [e|] eqn:He.
  - exists (exn_msg e). split; [done|]. intros Hstr.
    by apply (first_date_error_str _ _ _ He).
  - apply first_date_error_None in He. rewrite Forall_forall in He.
    specialize (He r Hr). unfold naive in Hnaive. unfold date_error in He.
    destruct (date r) as [[d| | | | | |]|]; try done.
    by destruct (fromisoformat E _).
Qed.

Lemma get_recent_reviews_naive_date_witness :
  res (get_recent_reviews Sample.app_id 1
         (Sample.E [Sample.item1; Sample2.item_naive; Sample.item2]) Sample.s0)
  = Raise (Exn APIError
             (lit "Error fetching reviews: "
              ++ lit "can't compare offset-naive and offset-aware datetimes")).
Proof.
  destruct (get_recent_reviews_naive_date Sample.app_id 1
              (Sample.E [Sample.item1; Sample2.item_naive; Sample.item2]) Sample.s0
              [] [Sample.item1; Sample2.item_naive; Sample.item2] false Sample2.r_naive)
    as (msg & Hres & Hmsg).
  - vm_compute. reflexivity.
  - vm_compute. discriminate.
  - vm_compute. split; discriminate.
  - reflexivity.
  - right. left.
  - vm_compute. reflexivity.
  - rewrite Hres, Hmsg; [reflexivity|]. repeat constructor.
Defined.



(** The fetch does not depend on how the write of the state file behaves. *)
Lemma get_recent_reviews_write app_id days E s w :
  get_recent_reviews app_id days (with_write_reply E w) s
  = get_recent_reviews app_id days E s.
Proof.
  unfold get_recent_reviews, make_api_request, timedelta_days, datetime_sub.
  munfold. simpl.
  repeat (case_bool_decide; simpl); try done.
  destruct (negb _); simpl; [done|].
  destruct (api_reply E) as [msg|msg|st txt [j|]]; simpl; try done.
  - case_bool_decide; simpl; [done|].
    destruct j as [[data|] o| |b]; simpl; try done;
      try (by destruct o); try (by destruct b).
    rewrite (filter_by_date_env E (with_write_reply E w)) by done.
    destruct (filter_by_date _ _ _ _ E s) as [[R|e] sf tf]; simpl; [done|].
    by destruct (exn_cls e).
  - case_bool_decide; simpl; done.
Qed.

(** X11. Without the three credentials the fetch raises [APIError] before
    any request is made: no GET is sent, and the store and the webhook are not
    touched. *)
Theorem get_recent_reviews_needs_credentials app_id days E s :
  all_set [KEY_ID E; PRIVATE_KEY E; ISSUER_ID E] = false →
  let o := get_recent_reviews app_id days E s in
  (∃ e, res o = Raise e ∧ exn_cls e = APIError) ∧
  filter is_get (trace o) = [] ∧ final o = s.
Proof.
  intros Hcred.
  unfold get_recent_reviews, make_api_request, timedelta_days, datetime_sub.
  munfold. simpl.
  change (match KEY_ID E with
          | Some (_ :: _) => true
          | _ => false
          end && (match PRIVATE_KEY E with
                  | Some (_ :: _) => true
                  | _ => false
                  end && (match ISSUER_ID E with
                          | Some (_ :: _) => true
                          | _ => false
                          end && true)))
    with (all_set [KEY_ID E; PRIVATE_KEY E; ISSUER_ID E]).
  rewrite Hcred.
  repeat (case_bool_decide; simpl); eauto.
Qed.

Lemma get_recent_reviews_needs_credentials_witness :
  let o := get_recent_reviews Sample.app_id 1 Sample.E_no_credentials Sample.s0 in
  (∃ e, res o = Raise e ∧ exn_cls e = APIError) ∧
  filter is_get (trace o) = [] ∧ final o = Sample.s0.
Proof.
  apply (get_recent_reviews_needs_credentials Sample.app_id 1
           Sample.E_no_credentials Sample.s0).
  reflexivity.
Defined.

(** X12. A negative lookback makes the window empty: the fetch never returns
    a review. *)
Theorem get_recent_reviews_negative_days app_id days E s R :
  days < 0 →
  res (get_recent_reviews app_id days E s) = Return R → R = [].
Proof.
  intros Hdays HR.
  destruct (get_recent_reviews_spec app_id days E s) as (_ & _ & H).
  rewrite HR in H. destruct H as (txt & data & other & _ & _ & ->). clear HR.
  induction (omap review_of_item data) as [|r l IH]; [done|].
  rewrite filter_cons_False; [done|].
  unfold keeps, window_start. destruct (date r) as [[d| | | | | |]|]; try done.
  destruct (fromisoformat E _); try done.
  rewrite bool_decide_eq_false_2; [done|]. lia.
Qed.

Lemma get_recent_reviews_negative_days_witness :
  res (get_recent_reviews Sample.app_id (-1) (Sample.E [Sample.item1; Sample.item2])
         Sample.s0) = Return [].
Proof.
  assert (∃ R, res (get_recent_reviews Sample.app_id (-1)
                      (Sample.E [Sample.item1; Sample.item2]) Sample.s0) = Return R)
    as [R HR] by (eexists; vm_compute; reflexivity).
  rewrite HR. f_equal.
  apply (get_recent_reviews_negative_days Sample.app_id (-1)
           (Sample.E [Sample.item1; Sample.item2]) Sample.s0 R); [lia|exact HR].
Defined.

(** The fetch does not read the state: from another state it gives the same
    result and the same events. *)
Lemma get_recent_reviews_state app_id days E s s' :
  res (get_recent_reviews app_id days E s') = res (get_recent_reviews app_id days E s) ∧
  trace (get_recent_reviews app_id days E s') = trace (get_recent_reviews app_id days E s).
Proof.
  unfold get_recent_reviews, make_api_request, timedelta_days, datetime_sub.
  munfold. simpl.
  repeat (case_bool_decide; simpl); try done.
  destruct (negb _); simpl; [done|].
  destruct (api_reply E) as [msg|msg|st txt [j|]]; simpl; try done.
  - case_bool_decide; simpl; [done|].
    destruct j as [[data|] o| |b]; simpl; try done; [|by destruct o|by destruct b].
    destruct (filter_by_date_frame E s (now_utc E - days * 86400000000) (now_utc E)
                (omap review_of_item data) []) as [Hf Ht].
    destruct (filter_by_date_frame E s' (now_utc E - days * 86400000000) (now_utc E)
                (omap review_of_item data) []) as [Hf' Ht'].
    pose proof (filter_by_date_res E s (now_utc E - days * 86400000000) (now_utc E)
                (omap review_of_item data) []) as Hr.
    pose proof (filter_by_date_res E s' (now_utc E - days * 86400000000) (now_utc E)
                (omap review_of_item data) []) as Hr'.
    destruct (filter_by_date _ _ _ _ E s) as [rf sf tf].
    destruct (filter_by_date _ _ _ _ E s') as [rf' sf' tf']. simpl in *. subst.
    destruct (first_date_error E _) as [[c m]|]; [by destruct c|done].
  - case_bool_decide; simpl; done.
Qed.

Local Opaque get_recent_reviews.

(* ===================================================================== *)
(** ** More on the seen-set store and the dedup pipeline *)
(* ===================================================================== *)

Local Transparent load_processed_reviews.

(** X13. [load_processed_reviews] never changes the state file. It returns
    exactly when the file is missing, or can be opened and holds a JSON
    object or content on which [json.load] raises a [JSONDecodeError]. In
    every other case (the file cannot be opened, its bytes are not text, it
    is nested too deeply, reading or decoding raises anything else, it holds
    JSON other than an object) an exception escapes, and what escapes is
    never a [JSONDecodeError]. An object without a [review_ids] key loads as
    the empty list. *)
Theorem load_processed_reviews_failures E s :
  let o := load_processed_reviews E s in
  final o = s ∧
  ((∃ P, res o = Return P) ↔
     file s = None ∨
     (can_read E = true ∧
      (file s = Some Garbage ∨ (∃ ids lr, file s = Some (JsonObject ids lr)) ∨
       ∃ e, file s = Some (Unloadable e) ∧
            issubclass (exn_cls e) JSONDecodeError = true))) ∧
  (∀ e, res o = Raise e →
        issubclass (exn_cls e) JSONDecodeError = false ∧
        (open_read E = None →
         file s = Some Undecodable ∨ file s = Some TooDeep ∨ file s = Some JsonOther ∨
         file s = Some (Unloadable e))) ∧
  (∀ lr, can_read E = true → file s = Some (JsonObject None lr) →
         res o = Return {| review_ids := []; last_run := lr |}).
Proof.
  unfold load_processed_reviews, can_read. munfold. simpl.
  destruct (file s) as [[| | |[c m]|ids lr|]|] eqn:Hf; simpl;
    destruct (open_read E) as [[]|] eqn:Hr; simpl; try destruct c; simpl.
  all: split; [done|]; split; [|split].
  all: try (split; [intros [P HP]; first [discriminate HP | by left | right; by eauto 8]
                   | intros [Hnone | [Hrd [Hg | [(i & l & Hobj) | (e' & He' & Hsub)]]]];
                     first [discriminate | done | by eexists | by simplify_eq/=]]).
  all: try (intros e He; first [discriminate He | injection He as <-; split; [done|]];
            first [discriminate | by eauto 8]).
  all: intros lr' Hrd' Hfile; first [discriminate | by injection Hfile as -> ->].
Qed.

Local Opaque load_processed_reviews.

Lemma fresh_cons seen r rest :
  fresh seen (r :: rest)
  = match review_id r with
    | Some i =>
        if bool_decide (i ∈ seen) then fresh seen rest
        else r :: fresh (seen ∪ {[i]}) rest
    | None => fresh seen rest
    end.
Proof. reflexivity. Qed.

Lemma fresh_all_seen seen R :
  (∀ r i, r ∈ R → review_id r = Some i → i ∈ seen) → fresh seen R = [].
Proof.
  induction R as [|r rest IH]; intros Hseen; [done|]. rewrite fresh_cons.
  assert (fresh seen rest = []) as Hrest.
  { apply IH. intros r' i Hr'. apply Hseen. by right. }
  destruct (review_id r) as [i|] eqn:Hi; [|done].
  rewrite bool_decide_eq_true_2; [done|]. apply (Hseen r); [left|done].
Qed.

Lemma fresh_ids_covered seen R r i :
  r ∈ R → review_id r = Some i → i ∈ seen ∪ ids_of (fresh seen R).
Proof.
  intros Hr Hi. destruct (decide (i ∈ seen)) as [Hin|Hin]; [by apply elem_of_union_l|].
  apply elem_of_union_r. unfold ids_of. apply elem_of_list_to_set, list_elem_of_omap.
  assert (unseen seen r) as Hun by (unfold unseen; by rewrite Hi).
  pose proof (fresh_complete seen R r Hr Hun) as Hc. rewrite Hi in Hc.
  apply list_elem_of_fmap in Hc as (r' & Hr' & Hin'). eauto.
Qed.

(** X14. Run twice on the same fetch result, with a state file that loads
    and can be read and written, the second run returns no review, saves
    nothing and leaves the state as the first run left it. *)
Theorem process_reviews_twice app_id days E s R P :
  res (get_recent_reviews app_id days E s) = Return R →
  res (load_processed_reviews E s) = Return P →
  can_read E = true → can_write E = true →
  let o1 := process_reviews app_id days E s in
  let o2 := process_reviews app_id days E (final o1) in
  res o2 = Return [] ∧ final o2 = final o1 ∧ filter is_save (trace o2) = [].
Proof.
  intros HR HP Hrd Hw o1 o2.
  destruct (process_reviews_spec app_id days E s) as (_ & H1). fold o1 in H1.
  destruct (process_reviews_spec app_id days E (final o1)) as (_ & H2). fold o2 in H2.
  destruct (get_recent_reviews_state app_id days E s (final o1)) as [HR2 _].
  rewrite HR2, HR in H2. rewrite HR in H1. rewrite (filter_save_store (trace o2)).
  destruct R as [|r R].
  { destruct H2 as (-> & -> & ->). done. }
  rewrite HP in H1. simpl in H1.
  set (S := list_to_set (review_ids P) : gset str) in *.
  destruct (fresh S (r :: R)) as [|n new] eqn:Hnew.
  - destruct H1 as (_ & Hfin & _). rewrite Hfin, HP in H2. simpl in H2. fold S in H2.
    rewrite Hnew in H2. destruct H2 as (-> & H2 & ->). by rewrite Hfin.
  - rewrite Hw in H1. destruct H1 as (_ & _ & Hfin). rewrite Hfin in H2 |- *.
    unfold saved in H2 |- *. rewrite load_saved in H2 by done. simpl in H2.
    rewrite list_to_set_elements_L, <- Hnew in H2.
    rewrite fresh_all_seen in H2.
    + cbv beta iota in H2. rewrite Hnew in H2. by destruct H2 as (-> & -> & ->).
    + intros r' i Hr' Hi. by eapply fresh_ids_covered.
Qed.

Lemma process_reviews_twice_witness :
  let E := Sample.E [Sample.item1; Sample.item2] in
  let o1 := process_reviews Sample.app_id 1 E Sample.s1 in
  let o2 := process_reviews Sample.app_id 1 E (final o1) in
  res o1 = Return [Sample.r2] ∧
  res o2 = Return [] ∧ final o2 = final o1 ∧ filter is_save (trace o2) = [].
Proof.
  split; [vm_compute; reflexivity|].
  apply (process_reviews_twice Sample.app_id 1 (Sample.E [Sample.item1; Sample.item2])
           Sample.s1 [Sample.r1; Sample.r2]
           (Processed [lit "r1"] (Some (lit "2024-01-01T04:00:00")))).
  - vm_compute. reflexivity.
  - vm_compute. reflexivity.
  - reflexivity.
  - reflexivity.
Defined.

(** X15. In every run, [process_reviews] returns (it never raises), makes no
    delivery call, and returns a subsequence of what the fetch returned; and
    whenever it returns reviews, their ids are in the state file it leaves:
    no review is handed to the caller before it is recorded as seen. *)
Theorem process_reviews_invariants app_id days E s :
  let o := process_reviews app_id days E s in
  ∃ new,
    res o = Return new ∧
    filter is_post (trace o) = [] ∧ posted (final o) = posted s ∧
    (∀ R, res (get_recent_reviews app_id days E s) = Return R → new `sublist_of` R) ∧
    (new ≠ [] →
       ∃ ids lr, file (final o) = Some (JsonObject (Some ids) lr) ∧
                 ∀ r, r ∈ new → ∃ i, review_id r = Some i ∧ i ∈ ids).
Proof.
  intros o. destruct (process_reviews_spec app_id days E s) as (Hpost & H). fold o in H, Hpost.
  assert (res o = Return [] ∧ posted (final o) = posted s →
          ∃ new, res o = Return new ∧ filter is_post (trace o) = [] ∧
            posted (final o) = posted s ∧
            (∀ R, res (get_recent_reviews app_id days E s) = Return R → new `sublist_of` R) ∧
            (new ≠ [] →
               ∃ ids lr, file (final o) = Some (JsonObject (Some ids) lr) ∧
                         ∀ r, r ∈ new → ∃ i, review_id r = Some i ∧ i ∈ ids)) as Hnil.
  { intros [-> Hp]. exists []. split_and!; [done..| |done]. intros R _. apply sublist_nil_l. }
  assert (posted (after_failed_save E s) = posted s) as Hfail
    by (unfold after_failed_save; by destruct (write_reply E)).
  destruct (res (get_recent_reviews app_id days E s)) as [[|r R]|e] eqn:HR.
  - apply Hnil. by destruct H as (? & -> & _).
  - destruct (res (load_processed_reviews E s)) as [P|e];
      [|apply Hnil; by destruct H as (? & -> & _)].
    simpl in H. set (S := list_to_set (review_ids P) : gset str) in *.
    destruct (fresh S (r :: R)) as [|n new] eqn:Hnew;
      [apply Hnil; by destruct H as (? & -> & _)|].
    destruct H as (_ & H).
    destruct (can_write E); [|apply Hnil; by destruct H as (? & ->)].
    destruct H as (-> & ->). exists (n :: new). split_and!; [done..| |].
    + intros R' [= <-]. rewrite <- Hnew. apply fresh_sublist.
    + intros _. eexists _, _. split; [done|]. intros r' Hr'. rewrite <- Hnew in Hr'.
      pose proof (fresh_unseen _ _ _ Hr') as Hun. unfold unseen in Hun.
      destruct (review_id r') as [i|] eqn:Hi; [|done]. exists i. split; [done|].
      apply elem_of_elements, elem_of_union_r. unfold ids_of.
      apply elem_of_list_to_set, list_elem_of_omap. rewrite Hnew in Hr'. eauto.
  - apply Hnil. by destruct H as (? & -> & _).
Qed.

(** X16. When the fetch returns reviews and the store cannot be loaded,
    [process_reviews] returns the empty list: nothing is saved, the state is
    unchanged, and the fetched reviews are not reported. *)
Theorem process_reviews_load_failure app_id days E s R e :
  res (get_recent_reviews app_id days E s) = Return R → R ≠ [] →
  res (load_processed_reviews E s) = Raise e →
  let o := process_reviews app_id days E s in
  res o = Return [] ∧ final o = s ∧ filter is_save (trace o) = [].
Proof.
  intros HR Hne He o.
  destruct (process_reviews_spec app_id days E s) as (_ & H). fold o in H.
  rewrite HR in H. destruct R as [|r R]; [done|]. rewrite He in H.
  destruct H as (? & ? & Hst). by rewrite filter_save_store, Hst.
Qed.

Lemma process_reviews_load_failure_witness :
  let o := process_reviews Sample.app_id 1
             (Sample.E_unreadable [Sample.item1; Sample.item2]) Sample.s1 in
  res o = Return [] ∧ final o = Sample.s1 ∧ filter is_save (trace o) = [].
Proof.
  apply (process_reviews_load_failure Sample.app_id 1
           (Sample.E_unreadable [Sample.item1; Sample.item2]) Sample.s1
           [Sample.r1; Sample.r2]
           (Exn PermissionError (lit "[Errno 13] Permission denied"))).
  - vm_compute. reflexivity.
  - discriminate.
  - vm_compute. reflexivity.
Defined.

Lemma fresh_empty_seen seen R : fresh seen R ≠ [] → fresh ∅ R ≠ [].
Proof.
  intros Hne Hnil. destruct (fresh seen R) as [|r l] eqn:Hf; [done|].
  assert (r ∈ fresh seen R) as Hr by (rewrite Hf; left).
  pose proof (fresh_unseen _ _ _ Hr) as Hun. unfold unseen in Hun.
  destruct (review_id r) as [i|] eqn:Hi; [|done].
  assert (r ∈ R) as HrR by (eapply elem_of_sublist; [done|apply fresh_sublist]).
  assert (unseen ∅ r) as Hun0 by (unfold unseen; rewrite Hi; set_solver).
  pose proof (fresh_complete ∅ R r HrR Hun0) as Hc. rewrite Hnil in Hc.
  by apply elem_of_nil in Hc.
Qed.

(** X29. A write of the state file that fails after the file was opened,
    leaving text that is not JSON, loses the seen set. The run returns no
    review; the file then loads as the empty seen set; and the next run on
    the same fetch result, with the write working again, returns every
    fetched review as new, those seen before the failure included. *)
Theorem process_reviews_failed_write_forgets app_id days E s R P msg :
  res (get_recent_reviews app_id days E s) = Return R →
  res (load_processed_reviews E s) = Return P →
  fresh (list_to_set (review_ids P)) R ≠ [] →
  write_reply E = WriteFails msg Garbage →
  can_read E = true →
  let o := process_reviews app_id days E s in
  res o = Return [] ∧ file (final o) = Some Garbage ∧
  res (load_processed_reviews E (final o))
  = Return {| review_ids := []; last_run := None |} ∧
  res (process_reviews app_id days (with_write_reply E WriteOk) (final o))
  = Return (fresh ∅ R).
Proof.
  intros HR HP Hnew Hw Hrd o.
  destruct (process_reviews_spec app_id days E s) as (_ & H). fold o in H.
  rewrite HR in H. destruct R as [|r R]; [done|]. rewrite HP in H. simpl in H.
  destruct (fresh _ (r :: R)) as [|n new] eqn:Hfresh; [done|].
  assert (can_write E = false) as Hcw by (apply can_write_false; by rewrite Hw).
  rewrite Hcw in H. destruct H as (_ & Hres & Hfin).
  assert (file (final o) = Some Garbage) as Hfile
    by (rewrite Hfin; unfold after_failed_save; by rewrite Hw).
  split_and!; [done|done|by apply load_garbage|].
  destruct (process_reviews_spec app_id days (with_write_reply E WriteOk) (final o))
    as (_ & H2).
  rewrite get_recent_reviews_write in H2.
  rewrite (proj1 (get_recent_reviews_state app_id days E s (final o))), HR in H2.
  rewrite (load_garbage (with_write_reply E WriteOk) (final o)) in H2 by done.
  simpl in H2. rewrite list_to_set_nil in H2.
  pose proof (fresh_empty_seen (list_to_set (review_ids P)) (r :: R)) as Hne.
  rewrite Hfresh in Hne. specialize (Hne ltac:(done)).
  destruct (fresh ∅ (r :: R)) as [|n0 new0]; [done|].
  by destruct H2 as (_ & -> & _).
Qed.

Lemma process_reviews_failed_write_forgets_witness :
  let E := Sample2.E_disk_full [Sample.item1; Sample.item2] in
  let o := process_reviews Sample.app_id 1 E Sample.s1 in
  res o = Return [] ∧ file (final o) = Some Garbage ∧
  res (load_processed_reviews E (final o))
  = Return {| review_ids := []; last_run := None |} ∧
  res (process_reviews Sample.app_id 1 (with_write_reply E WriteOk) (final o))
  = Return (fresh ∅ [Sample.r1; Sample.r2]).
Proof.
  apply (process_reviews_failed_write_forgets Sample.app_id 1
           (Sample2.E_disk_full [Sample.item1; Sample.item2]) Sample.s1
           [Sample.r1; Sample.r2]
           (Processed [lit "r1"] (Some (lit "2024-01-01T04:00:00")))
           (lit "[Errno 28] No space left on device")).
  - vm_compute. reflexivity.
  - vm_compute. reflexivity.
  - vm_compute. discriminate.
  - reflexivity.
  - reflexivity.
Defined.

(* ===================================================================== *)
(** ** More on the notifier *)
(* ===================================================================== *)

Local Transparent send_loop.
Local Opaque message_text message_lines repeat_star.

(** What one run of the delivery loop does, whatever the reviews hold and
    whatever the webhook answers. *)
Lemma send_loop_run url ch reviews E s :
  let o := send_loop url ch reviews E s in
  ∃ n, (n ≤ length reviews)%nat ∧
    Forall (fun r => has_star_line E r = true) (take n reviews) ∧
    filter is_post (trace o) = attempts url ch (take n reviews) ∧
    forallb (fun e => is_post e || is_log e) (trace o) = true ∧
    final o = State (file s) (posted s + n) ∧
    match res o with
    | Return _ => n = length reviews
    | Raise e =>
        ((1 ≤ n)%nat ∧ ok_reply (webhook_reply E (posted s + n - 1)) = false) ∨
        (∃ r, reviews !! n = Some r ∧ has_star_line E r = false)
    end.
Proof.
  revert s. induction reviews as [|r rest IH]; intros s; simpl.
  { exists 0%nat. rewrite Nat.add_0_r. split_and!; [done..| |done]. by destruct s. }
  destruct (has_star_line E r) eqn:Hr.
  2:{ destruct (repeat_star_not_int E r Hr) as (e0 & He0 & _).
      munfold. rewrite He0. simpl.
      exists 0%nat. rewrite Nat.add_0_r. simpl.
      split_and!; [lia|done..| |right; by exists r]. by destruct s. }
  destruct (repeat_star_int E r Hr) as (stars & Hst & Htext).
  munfold. unfold post. rewrite Hst. simpl. rewrite Htext.
  destruct (webhook_reply E (posted s)) as [msg|st txt] eqn:Hreply; simpl.
  - exists 1%nat. simpl. rewrite ?take_0, Nat.add_sub, Hreply. simpl.
    split_and!; [lia|by repeat constructor|done|done|f_equal; lia|left; by split; [lia|]].
  - case_bool_decide as Hst'; simpl.
    + exists 1%nat. simpl. rewrite ?take_0, Nat.add_sub, Hreply. simpl.
      split_and!; [lia|by repeat constructor|done|done|f_equal; lia|].
      left. split; [lia|]. by apply bool_decide_eq_false.
    + specialize (IH (State (file s) (S (posted s)))). simpl in IH.
      destruct (send_loop url ch rest E _) as [ro so to]. simpl in *.
      destruct IH as (n & Hn & Hints & Hposts & Hall & -> & Hres).
      exists (S n). simpl. rewrite !filter_cons. simpl. rewrite Hposts, Hall.
      split_and!; [lia|by constructor|done|done|f_equal; lia|].
      destruct ro as [[]|e]; [lia|].
      destruct Hres as [[Hn1 Hbad]|Hres]; [left|by right]. split; [lia|].
      by replace (posted s + S n - 1)%nat with (posted s + n - 0)%nat by lia.
Qed.

(** The exception of the first call that is not accepted. *)
Lemma send_loop_fail_exn url ch pre r rest E s :
  Forall (fun r => has_star_line E r = true) (pre ++ [r]) →
  (∀ k, (k < length pre)%nat → ok_reply (webhook_reply E (posted s + k)%nat) = true) →
  ok_reply (webhook_reply E (posted s + length pre)%nat) = false →
  res (send_loop url ch (pre ++ r :: rest) E s)
  = Raise (delivery_failure (webhook_reply E (posted s + length pre)%nat)).
Proof.
  revert s. induction pre as [|p pre IH]; intros s Hint Hok Hbad; simpl.
  - apply Forall_cons in Hint as [Hr _].
    destruct (repeat_star_int E r Hr) as (stars & Hst & Htext).
    munfold. unfold post. rewrite Hst. simpl. rewrite Nat.add_0_r in *.
    destruct (webhook_reply E (posted s)) as [msg|st txt]; simpl in *; [done|].
    apply bool_decide_eq_false in Hbad.
    by rewrite bool_decide_eq_true_2.
  - simpl in Hint. apply Forall_cons in Hint as [Hp Hint].
    destruct (repeat_star_int E p Hp) as (stars & Hst & Htext).
    munfold. unfold post. rewrite Hst. simpl.
    pose proof (Hok 0%nat ltac:(simpl; lia)) as H0. rewrite Nat.add_0_r in H0.
    destruct (webhook_reply E (posted s)) as [msg|st txt]; [done|]. simpl in H0.
    apply bool_decide_eq_true in H0 as ->. simpl.
    specialize (IH (State (file s) (S (posted s))) Hint). simpl in IH.
    cbn [length] in Hbad. rewrite Nat.add_succ_r in Hbad. rewrite Nat.add_succ_r.
    destruct (send_loop url ch (pre ++ r :: rest) E _) as [ro so to]. simpl in *.
    rewrite IH; [done| |done].
    intros k Hk. specialize (Hok (S k) ltac:(lia)).
    by rewrite Nat.add_succ_r in Hok.
Qed.

(** The delivery loop at a review whose star line cannot be built. *)
Lemma send_loop_bad_rating url ch pre r rest E s e :
  Forall (fun r => has_star_line E r = true) pre →
  (∀ k, (k < length pre)%nat → ok_reply (webhook_reply E (posted s + k)%nat) = true) →
  repeat_star (str_capacity E) (default (VInt 0) (rating r)) = Raise e →
  let o := send_loop url ch (pre ++ r :: rest) E s in
  res o = Raise e ∧
  final o = State (file s) (posted s + length pre)%nat ∧
  filter is_post (trace o) = attempts url ch pre.
Proof.
  intros Hint. revert s. induction Hint as [|p pre Hp _ IH]; intros s Hok Hr; simpl.
  - munfold. rewrite Hr. simpl. rewrite Nat.add_0_r.
    split_and!; [done| |done]. by destruct s.
  - destruct (repeat_star_int E p Hp) as (stars & Hst & Htext).
    munfold. unfold post. rewrite Hst. simpl. rewrite Htext.
    pose proof (Hok 0%nat ltac:(simpl; lia)) as H0. rewrite Nat.add_0_r in H0.
    destruct (webhook_reply E (posted s)) as [msg|st txt]; [done|]. simpl in H0.
    apply bool_decide_eq_true in H0 as ->. simpl.
    specialize (IH (State (file s) (S (posted s)))). simpl in IH.
    destruct (send_loop url ch (pre ++ r :: rest) E _) as [ro so to]. simpl in *.
    destruct IH as (-> & -> & Ht); [|done|].
    { intros k Hk. specialize (Hok (S k) ltac:(lia)).
      by rewrite Nat.add_succ_r in Hok. }
    split_and!; [done|f_equal; lia|].
    rewrite !filter_cons. simpl. by rewrite Ht.
Qed.

Local Opaque send_loop.

Lemma posts_logs_no_store t :
  forallb (fun e => is_post e || is_log e) t = true → filter is_store t = [].
Proof.
  induction t as [|e t IH]; [done|]. simpl. intros [He Ht]%andb_true_iff.
  rewrite filter_cons, IH by done. by destruct e.
Qed.

(** What one run of the notifier does, whatever the reviews hold and
    whatever the webhook answers. *)
Lemma send_slack_notification_run url ch reviews E s :
  let o := send_slack_notification url reviews ch E s in
  ∃ n, (n ≤ length reviews)%nat ∧
    Forall (fun r => has_star_line E r = true) (take n reviews) ∧
    filter is_post (trace o) = attempts url ch (take n reviews) ∧
    forallb (fun e => is_post e || is_log e) (trace o) = true ∧
    final o = State (file s) (posted s + n) ∧
    match res o with
    | Return _ => n = length reviews
    | Raise e =>
        exn_cls e = SlackError ∧
        (((1 ≤ n)%nat ∧ ok_reply (webhook_reply E (posted s + n - 1)) = false) ∨
         (∃ r, reviews !! n = Some r ∧ has_star_line E r = false))
    end.
Proof.
  destruct reviews as [|r reviews].
  { exists 0%nat. simpl. rewrite Nat.add_0_r. split_and!; [done..| |done]. by destruct s. }
  rewrite send_slack_notification_cons. unfold try.
  destruct (send_loop_run url ch (r :: reviews) E s)
    as (n & Hn & Hints & Hposts & Hall & Hfin & Hres).
  pose proof (send_loop_raises url ch (r :: reviews) E s) as Hcls.
  destruct (send_loop url ch (r :: reviews) E s) as [ro so to].
  simpl in Hposts, Hall, Hfin, Hres, Hcls. subst so. exists n.
  destruct ro as [[]|[c msg]]; [by split_and!|].
  destruct (Hcls _ eq_refl) as [Hc|[Hc|Hc]]; simpl in Hc;
    [subst c..|destruct c; try done];
    simpl; rewrite app_nil_r; by split_and!.
Qed.

(** When every message can be built and every call is accepted the notifier
    returns, and the state file is as before. *)
Lemma send_slack_notification_accepted url ch reviews E s :
  Forall (fun r => has_star_line E r = true) reviews →
  (∀ k, (k < length reviews)%nat → ok_reply (webhook_reply E (posted s + k)%nat) = true) →
  let o := send_slack_notification url reviews ch E s in
  res o = Return tt ∧ filter is_post (trace o) = attempts url ch reviews ∧
  filter is_store (trace o) = [] ∧ file (final o) = file s.
Proof.
  intros Hint Hok o.
  destruct (send_slack_notification_all_ok url ch reviews E s Hint Hok) as [Hr Hp].
  destruct (send_slack_notification_run url ch reviews E s) as (n & _ & _ & _ & Hall & Hfin & _).
  fold o in Hr, Hp, Hall, Hfin. split_and!; [done|done|by apply posts_logs_no_store|].
  by rewrite Hfin.
Qed.

(** X17. The message of the [SlackError] tells the kinds of failure apart.
    For reviews whose star line can be built (the rating is absent, or an
    integer that the star can be repeated by): when the first call that is
    not accepted was answered with a
    status other than 200 the message is "Failed to send notification: "
    followed by the response text; when the call itself raised, it is
    "Error sending notification: " followed by the text of that exception. *)
Theorem send_slack_notification_error_message url ch pre r rest E s :
  Forall (fun r => has_star_line E r = true) (pre ++ [r]) →
  (∀ k, (k < length pre)%nat → ok_reply (webhook_reply E (posted s + k)%nat) = true) →
  ok_reply (webhook_reply E (posted s + length pre)%nat) = false →
  res (send_slack_notification url (pre ++ r :: rest) ch E s)
  = Raise (Exn SlackError
      match webhook_reply E (posted s + length pre)%nat with
      | PostReply _ error_msg => lit "Failed to send notification: " ++ error_msg
      | PostRaises msg => lit "Error sending notification: " ++ msg
      end).
Proof.
  intros Hint Hok Hbad.
  assert (∃ x l, pre ++ r :: rest = x :: l) as (x & l & Hl) by (destruct pre; simpl; eauto).
  pose proof (send_loop_fail_exn url ch pre r rest E s Hint Hok Hbad) as He.
  rewrite Hl in *. rewrite send_slack_notification_cons. unfold try.
  destruct (send_loop url ch (x :: l) E s) as [ro so to]. simpl in He. subst ro.
  by destruct (webhook_reply E (posted s + length pre)%nat).
Qed.

Lemma send_slack_notification_error_message_witness :
  res (send_slack_notification Sample.webhook_url
         ([Sample.r1] ++ Sample.r2 :: [Sample.r3]) Sample.channel
         Sample.E_second_fails Sample.s0)
  = Raise (Exn SlackError
      match webhook_reply Sample.E_second_fails (posted Sample.s0 + 1)%nat with
      | PostReply _ error_msg => lit "Failed to send notification: " ++ error_msg
      | PostRaises msg => lit "Error sending notification: " ++ msg
      end).
Proof.
  apply (send_slack_notification_error_message Sample.webhook_url Sample.channel
           [Sample.r1] Sample.r2 [Sample.r3] Sample.E_second_fails Sample.s0).
  - repeat constructor.
  - intros k Hk. simpl in Hk. assert (k = 0%nat) as -> by lia. reflexivity.
  - reflexivity.
Defined.

(** X18. In every run, whatever the reviews hold and whatever the webhook
    answers, the delivery calls are the messages of the first [n] reviews,
    one call each, in order, for some [n]; the post counter grows by [n];
    the state file is neither read nor written. The notifier returns only
    when [n] is the number of reviews; when it raises, either the last call
    made is one that was not accepted, or the star line of the next review
    cannot be built (its rating is not an integer, or is too large), and
    what it raises is a [SlackError]. *)
Theorem send_slack_notification_prefix url ch reviews E s :
  let o := send_slack_notification url reviews ch E s in
  ∃ n, (n ≤ length reviews)%nat ∧
    filter is_post (trace o) = attempts url ch (take n reviews) ∧
    filter is_store (trace o) = [] ∧
    final o = State (file s) (posted s + n) ∧
    (∀ u, res o = Return u → n = length reviews) ∧
    (∀ e, res o = Raise e →
       exn_cls e = SlackError ∧
       (((1 ≤ n)%nat ∧ ok_reply (webhook_reply E (posted s + n - 1)) = false) ∨
        (∃ r, reviews !! n = Some r ∧ has_star_line E r = false))) ∧
    (Forall (fun r => has_star_line E r = true) reviews →
     ∀ e, res o = Raise e →
       (1 ≤ n)%nat ∧ ok_reply (webhook_reply E (posted s + n - 1)) = false).
Proof.
  intros o. destruct (send_slack_notification_run url ch reviews E s)
    as (n & Hn & _ & Hposts & Hall & Hfin & Hres). fold o in Hposts, Hall, Hfin, Hres.
  exists n. split_and!; [done|done|by apply posts_logs_no_store|done| | |].
  - intros u Hu. by rewrite Hu in Hres.
  - intros e He. by rewrite He in Hres.
  - intros Hint e He. rewrite He in Hres. destruct Hres as (_ & [Hbad|(r & Hr & Hno)]); [done|].
    rewrite Forall_forall in Hint. apply list_elem_of_lookup_2, Hint in Hr. congruence.
Qed.

(** X19. When the webhook accepts every call, [send_slack_notification]
    returns after exactly one delivery call per review, in the order of the
    list, each carrying the message of its review, for reviews whose star
    line can be built (the rating is absent, or an integer that the star can
    be repeated by); the post counter grows by the number of reviews and the
    state file is unchanged. For the empty list that is no call at all. *)
Theorem send_slack_notification_delivers_all url ch reviews E s :
  Forall (fun r => has_star_line E r = true) reviews →
  (∀ k, (k < length reviews)%nat → ok_reply (webhook_reply E (posted s + k)%nat) = true) →
  let o := send_slack_notification url reviews ch E s in
  res o = Return tt ∧
  filter is_post (trace o) = attempts url ch reviews ∧
  final o = State (file s) (posted s + length reviews).
Proof.
  intros Hint Hok o. subst o. destruct reviews as [|r reviews].
  { simpl. rewrite Nat.add_0_r. by destruct s. }
  rewrite send_slack_notification_cons. unfold try.
  destruct (send_loop_ok url ch (r :: reviews) E s Hint Hok) as (Hr & Hf & Ht).
  destruct (send_loop url ch (r :: reviews) E s) as [ro so to]. simpl in *. by subst.
Qed.

Lemma send_slack_notification_delivers_all_witness :
  let o := send_slack_notification Sample.webhook_url [Sample.r1; Sample.r2]
             Sample.channel (Sample.E []) Sample.s0 in
  res o = Return tt ∧
  filter is_post (trace o) = attempts Sample.webhook_url Sample.channel [Sample.r1; Sample.r2] ∧
  final o = State (file Sample.s0) (posted Sample.s0 + 2).
Proof.
  apply (send_slack_notification_delivers_all Sample.webhook_url Sample.channel
           [Sample.r1; Sample.r2] (Sample.E []) Sample.s0).
  - repeat constructor.
  - intros k _. reflexivity.
Defined.

(** X27. A review whose star line cannot be built (its rating is null, a
    string, a float, or an integer too large to repeat the star by) stops
    the delivery like a failed call: the reviews before it are delivered,
    the exception of building the star line comes out as [SlackError], and
    neither this review nor the ones after it are sent. For a rating that is
    not an integer the message names its type. *)
Theorem send_slack_notification_bad_rating url ch pre r rest E s :
  Forall (fun r => has_star_line E r = true) pre →
  (∀ k, (k < length pre)%nat → ok_reply (webhook_reply E (posted s + k)%nat) = true) →
  has_star_line E r = false →
  let o := send_slack_notification url (pre ++ r :: rest) ch E s in
  (∃ msg, res o = Raise (Exn SlackError (lit "Error sending notification: " ++ msg)) ∧
     (is_int (default (VInt 0) (rating r)) = false →
      msg = lit "can't multiply sequence by non-int of type '"
            ++ type_name (default (VInt 0) (rating r)) ++ lit "'")) ∧
  filter is_post (trace o) = attempts url ch pre ∧
  posted (final o) = (posted s + length pre)%nat.
Proof.
  intros Hint Hok Hr o.
  assert (∃ x l, pre ++ r :: rest = x :: l) as (x & l & Hl) by (destruct pre; simpl; eauto).
  destruct (repeat_star_not_int E r Hr) as ([c msg] & He0 & Hc).
  subst o. destruct (send_loop_bad_rating url ch pre r rest E s _ Hint Hok He0) as (He & Hf & Ht).
  rewrite Hl in *. rewrite send_slack_notification_cons. unfold try.
  destruct (send_loop url ch (x :: l) E s) as [ro so to]. simpl in *. subst ro so.
  destruct c; try done; simpl; rewrite app_nil_r; (split_and!; [|done|done]);
    exists msg; (split; [done|]); intros Hi;
    rewrite (repeat_star_type_error _ _ Hi) in He0; congruence.
Qed.

Lemma send_slack_notification_bad_rating_witness :
  let o := send_slack_notification Sample.webhook_url
             ([Sample.r1] ++ Sample2.r_null :: [Sample.r2]) Sample.channel
             (Sample.E []) Sample.s0 in
  (∃ msg, res o = Raise (Exn SlackError (lit "Error sending notification: " ++ msg)) ∧
     (is_int (default (VInt 0) (rating Sample2.r_null)) = false →
      msg = lit "can't multiply sequence by non-int of type '"
            ++ type_name (default (VInt 0) (rating Sample2.r_null)) ++ lit "'")) ∧
  filter is_post (trace o) = attempts Sample.webhook_url Sample.channel [Sample.r1] ∧
  posted (final o) = (posted Sample.s0 + 1)%nat.
Proof.
  apply (send_slack_notification_bad_rating Sample.webhook_url Sample.channel
           [Sample.r1] Sample2.r_null [Sample.r2] (Sample.E []) Sample.s0).
  - repeat constructor.
  - intros k _. reflexivity.
  - reflexivity.
Defined.

(* ===================================================================== *)
(** ** format_review_message *)
(* ===================================================================== *)

Local Transparent lit message_text message_lines repeat_star.

Lemma no_title_differ x y : lit "(No title)" ++ x ≠ lit "No title" ++ y.
Proof. intros H. cbv in H. discriminate. Qed.

Lemma no_content_differ x y : lit "(No content)" ++ x ≠ lit "No review text" ++ y.
Proof. intros H. cbv in H. discriminate. Qed.

Lemma unknown_not_empty : lit "Unknown" ≠ [].
Proof. intros H. cbv in H. discriminate. Qed.

Local Opaque lit.

(** X20. For a raw record with attributes, [format_review_message] raises
    exactly when the star line of the normalised record cannot be built, as
    the notifier does: [TypeError] on a rating that is not an integer,
    [OverflowError] or [MemoryError] on an integer that is too large.
    Otherwise its block text is the text [send_slack_notification] posts for
    the normalised record exactly when the record has a title, a body and a
    creation date: the two formatters differ in the defaults of these three
    fields and agree in everything else. *)
Theorem format_review_message_vs_message_text it attrs r E s :
  item_attributes it = Some attrs →
  review_of_item it = Some r →
  match res (format_review_message it E s) with
  | Return block =>
      has_star_line E r = true ∧
      (block_text block = message_text r
       ↔ is_Some (a_title attrs) ∧ is_Some (a_body attrs) ∧ is_Some (a_createdDate attrs))
  | Raise e =>
      has_star_line E r = false ∧ star_error (exn_cls e) = true ∧
      (is_int (default (VInt 0) (rating r)) = false → exn_cls e = TypeError)
  end.
Proof.
  intros Hattrs Hr. unfold review_of_item in Hr. rewrite Hattrs in Hr.
  injection Hr as <-.
  unfold format_review_message. rewrite Hattrs. munfold.
  cbn [from_option id rating].
  match goal with
  | |- context [has_star_line E ?r] =>
      destruct (has_star_line E r) eqn:Hint;
      [pose proof (repeat_star_stars E r Hint) as Hs
      |destruct (repeat_star_not_int E r Hint) as (e0 & Hs & Hc)]
  end; cbn [from_option id rating] in Hs; rewrite Hs; cbn [res].
  2:{ split_and!; [done..|]. intros Hi.
      rewrite (repeat_star_type_error _ _ Hi) in Hs. by injection Hs as <-. }
  split; [done|].
  unfold message_text, message_lines.
  cbn [from_option id block_text rating title body author territory date]. split.
  - intros H.
    destruct (a_title attrs) as [t|], (a_body attrs) as [b|], (a_createdDate attrs) as [d|];
      cbn [from_option id format_value] in H; [by split_and!; eauto|exfalso..];
      repeat apply app_inv_head in H;
      first [by apply no_title_differ in H | by apply no_content_differ in H
            | by apply unknown_not_empty in H].
  - intros ([t ->] & [b ->] & [d ->]). reflexivity.
Qed.

Lemma format_review_message_vs_message_text_witness :
  match res (format_review_message Sample.item1 (Sample.E []) Sample.s0) with
  | Return block =>
      has_star_line (Sample.E []) Sample.r1 = true ∧
      (block_text block = message_text Sample.r1
       ↔ is_Some (a_title (Sample.attrs 5 "Great" "Love it"))
         ∧ is_Some (a_body (Sample.attrs 5 "Great" "Love it"))
         ∧ is_Some (a_createdDate (Sample.attrs 5 "Great" "Love it")))
  | Raise e =>
      has_star_line (Sample.E []) Sample.r1 = false ∧ star_error (exn_cls e) = true ∧
      (is_int (default (VInt 0) (rating Sample.r1)) = false → exn_cls e = TypeError)
  end.
Proof.
  apply (format_review_message_vs_message_text Sample.item1
           (Sample.attrs 5 "Great" "Love it") Sample.r1 (Sample.E []) Sample.s0); reflexivity.
Defined.

Local Opaque message_text message_lines repeat_star.

(* ===================================================================== *)
(** ** The entry points: [main] of core.py and of cli.py *)
(* ===================================================================== *)

Lemma status_review_int E L current_time next_run days :
  has_star_line E (Cli.status_review L current_time next_run days) = true.
Proof. apply bool_decide_eq_true. unfold maxsize. lia. Qed.

(** The printing loop of a dry run: it prints every review when every star
    line can be built, and otherwise raises the exception of the first one
    that cannot. It touches nothing. *)
Lemma print_reviews_spec new E s :
  let o := Cli.print_reviews new E s in
  final o = s ∧ trace o = [] ∧
  (Forall (fun r => has_star_line E r = true) new →
   ∃ l, res o = Return l ∧
        Cli.dry_run_lines new
        = (NL ++ lit "Found " ++ str_of_Z (Z.of_nat (length new)) ++ lit " new reviews:")
          :: l) ∧
  (∀ e, res o = Raise e →
     star_error (exn_cls e) = true ∧ ∃ r, r ∈ new ∧ has_star_line E r = false).
Proof.
  assert (∀ new : list review,
    let o := Cli.print_reviews new E s in
    final o = s ∧ trace o = [] ∧
    (Forall (fun r => has_star_line E r = true) new →
     res o = Return (flat_map (fun review =>
                Cli.review_lines (stars (default (VInt 0) (rating review))) review) new)) ∧
    (∀ e, res o = Raise e →
       star_error (exn_cls e) = true ∧ ∃ r, r ∈ new ∧ has_star_line E r = false)) as Hgen.
  { clear new. intros new. induction new as [|r rest IH]; simpl; [done|].
    destruct IH as (Hf & Ht & Hret & Hraise).
    destruct (has_star_line E r) eqn:Hr.
    - munfold. rewrite (repeat_star_stars E r Hr). simpl.
      destruct (Cli.print_reviews rest E s) as [[l|e] sf tf]; simpl in *; subst.
      + split; [done|]. split; [done|]. split; [|by intros e' [=]].
        intros [_ Hint]%Forall_cons. specialize (Hret Hint). by injection Hret as ->.
      + split; [done|]. split; [done|]. split.
        * intros [_ Hint]%Forall_cons. by specialize (Hret Hint).
        * intros e' [= <-]. destruct (Hraise e eq_refl) as (Hc & r' & Hr' & Hno).
          split; [done|]. exists r'. split; [by right|done].
    - destruct (repeat_star_not_int E r Hr) as (e0 & He0 & Hc).
      munfold. rewrite He0. simpl.
      split; [done|]. split; [done|]. split.
      + intros [Hr' _]%Forall_cons. congruence.
      + intros e' [= <-]. split; [done|]. exists r. split; [left|done]. }
  intros o. destruct (Hgen new) as (Hf & Ht & Hret & Hraise). fold o in Hf, Ht, Hret, Hraise.
  split_and!; [done..| |done].
  intros Hint. eexists. split; [by apply Hret|done].
Qed.

Local Opaque send_slack_notification process_reviews.
Local Opaque Cli.get_next_check_time Cli.status_review Cli.dry_run_lines Cli.print_reviews.

(** X21. [main] of core.py keeps no record of what it sent: on a source that
    returns the same reviews, all with a star line that can be built, and
    with a webhook that accepts every call, a second run posts every fetched
    review again;
    neither run reads or writes the state file. *)
Theorem main_resends_on_every_run APP_ID w E s R :
  res (get_recent_reviews (format_getenv APP_ID) 1 E s) = Return R →
  Forall (fun r => has_star_line E r = true) R →
  (∀ n, ok_reply (webhook_reply E n) = true) →
  let o1 := main APP_ID (Some w) E s in
  let o2 := main APP_ID (Some w) E (final o1) in
  filter is_post (trace o1) = attempts w (lit "#app-reviews") R ∧
  filter is_post (trace o2) = attempts w (lit "#app-reviews") R ∧
  filter is_store (trace o1 ++ trace o2) = [] ∧
  file (final o2) = file s.
Proof.
  intros HR Hint Hok.
  assert (∀ s0, res (get_recent_reviews (format_getenv APP_ID) 1 E s0) = Return R →
            let o := main APP_ID (Some w) E s0 in
            filter is_post (trace o) = attempts w (lit "#app-reviews") R ∧
            filter is_store (trace o) = [] ∧ file (final o) = file s0) as Hrun.
  { intros s0 HR0. unfold main. munfold. simpl.
    destruct (get_recent_reviews_spec (format_getenv APP_ID) 1 E s0) as (Hf & Hq & _).
    destruct (get_recent_reviews (format_getenv APP_ID) 1 E s0) as [rg sg tg].
    simpl in HR0, Hf, Hq. subst rg sg.
    destruct R as [|r R]; simpl.
    { rewrite app_nil_r, quiet_no_post, quiet_no_store by done. done. }
    destruct (send_slack_notification_accepted w (lit "#app-reviews") (r :: R) E s0)
      as (Hr & Hp & Hst & Hfile); [done|intros; apply Hok|].
    destruct (send_slack_notification w (r :: R) (lit "#app-reviews") E s0) as [rn sn tn].
    simpl in Hr, Hp, Hst, Hfile. subst rn. simpl.
    rewrite app_nil_r, !filter_app, quiet_no_post, quiet_no_store, Hp, Hst by done. done. }
  intros o1 o2.
  destruct (Hrun s HR) as (Hp1 & Hs1 & Hf1). fold o1 in Hp1, Hs1, Hf1.
  destruct (Hrun (final o1)) as (Hp2 & Hs2 & Hf2).
  { by rewrite (proj1 (get_recent_reviews_state _ _ E s (final o1))). }
  fold o2 in Hp2, Hs2, Hf2.
  rewrite filter_app, Hs1, Hs2, Hf2, Hf1. done.
Qed.

Lemma main_resends_on_every_run_witness :
  let E := Sample.E [Sample.item1; Sample.item2] in
  let o1 := main (Some Sample.app_id) (Some Sample.webhook_url) E Sample.s0 in
  let o2 := main (Some Sample.app_id) (Some Sample.webhook_url) E (final o1) in
  filter is_post (trace o1)
  = attempts Sample.webhook_url (lit "#app-reviews") [Sample.r1; Sample.r2] ∧
  filter is_post (trace o2)
  = attempts Sample.webhook_url (lit "#app-reviews") [Sample.r1; Sample.r2] ∧
  filter is_store (trace o1 ++ trace o2) = [] ∧
  file (final o2) = file Sample.s0.
Proof.
  apply (main_resends_on_every_run (Some Sample.app_id) Sample.webhook_url
           (Sample.E [Sample.item1; Sample.item2]) Sample.s0 [Sample.r1; Sample.r2]).
  - vm_compute. reflexivity.
  - repeat constructor.
  - intros n. reflexivity.
Defined.

(** X22. [main] of core.py does not handle a failed fetch: the [APIError] of
    [get_recent_reviews] leaves [main] as it is, nothing is printed, no
    delivery call is made and the state is unchanged. *)
Theorem main_propagates_fetch_failure APP_ID SLACK_WEBHOOK_URL E s e :
  res (get_recent_reviews (format_getenv APP_ID) 1 E s) = Raise e →
  let o := main APP_ID SLACK_WEBHOOK_URL E s in
  res o = Raise e ∧ exn_cls e = APIError ∧
  filter is_post (trace o) = [] ∧ final o = s.
Proof.
  intros He. unfold main. munfold. simpl.
  destruct (get_recent_reviews_spec (format_getenv APP_ID) 1 E s) as (Hf & Hq & Hcls).
  destruct (get_recent_reviews (format_getenv APP_ID) 1 E s) as [rg sg tg].
  simpl in He, Hf, Hq, Hcls. subst rg sg. simpl.
  by rewrite quiet_no_post.
Qed.

Lemma main_propagates_fetch_failure_witness :
  let o := main (Some Sample.app_id) (Some Sample.webhook_url) Sample2.E_source_down
             Sample.s0 in
  res o = Raise (Exn APIError (lit "Failed to fetch reviews from App Store Connect API")) ∧
  exn_cls (Exn APIError (lit "Failed to fetch reviews from App Store Connect API"))
  = APIError ∧
  filter is_post (trace o) = [] ∧ final o = Sample.s0.
Proof.
  apply (main_propagates_fetch_failure (Some Sample.app_id) (Some Sample.webhook_url)
           Sample2.E_source_down Sample.s0).
  vm_compute. reflexivity.
Defined.

(** What every run of [process_reviews] gives: it returns, makes no delivery
    call, and the ids of what it returns are in the state file it leaves. *)
Lemma process_reviews_summary app_id days E s :
  let o := process_reviews app_id days E s in
  ∃ new,
    res o = Return new ∧
    filter is_post (trace o) = [] ∧ posted (final o) = posted s ∧
    (new ≠ [] →
       ∃ ids lr, file (final o) = Some (JsonObject (Some ids) lr) ∧
                 ∀ r, r ∈ new → ∃ i, review_id r = Some i ∧ i ∈ ids).
Proof.
  intros o. destruct (process_reviews_spec app_id days E s) as (Hpost & H). fold o in H, Hpost.
  assert (res o = Return [] ∧ posted (final o) = posted s →
          ∃ new, res o = Return new ∧ filter is_post (trace o) = [] ∧
            posted (final o) = posted s ∧
            (new ≠ [] →
               ∃ ids lr, file (final o) = Some (JsonObject (Some ids) lr) ∧
                         ∀ r, r ∈ new → ∃ i, review_id r = Some i ∧ i ∈ ids)) as Hnil.
  { intros [-> Hp]. exists []. by split_and!. }
  assert (posted (after_failed_save E s) = posted s) as Hfail
    by (unfold after_failed_save; by destruct (write_reply E)).
  destruct (res (get_recent_reviews app_id days E s)) as [[|r R]|e] eqn:HR.
  - apply Hnil. by destruct H as (? & -> & _).
  - destruct (res (load_processed_reviews E s)) as [P|e];
      [|apply Hnil; by destruct H as (? & -> & _)].
    simpl in H. set (S := list_to_set (review_ids P) : gset str) in *.
    destruct (fresh S (r :: R)) as [|n new] eqn:Hnew;
      [apply Hnil; by destruct H as (? & -> & _)|].
    destruct H as (_ & H).
    destruct (can_write E); [|apply Hnil; by destruct H as (? & ->)].
    destruct H as (-> & ->). exists (n :: new). split_and!; [done..|].
    intros _. eexists _, _. split; [done|]. intros r' Hr'. rewrite <- Hnew in Hr'.
    pose proof (fresh_unseen _ _ _ Hr') as Hun. unfold unseen in Hun.
    destruct (review_id r') as [i|] eqn:Hi; [|done]. exists i. split; [done|].
    apply elem_of_elements, elem_of_union_r. unfold ids_of.
    apply elem_of_list_to_set, list_elem_of_omap. rewrite Hnew in Hr'. eauto.
  - apply Hnil. by destruct H as (? & -> & _).
Qed.

(** X23. A dry run makes no delivery call, whatever the webhook setting,
    and it leaves the state that [process_reviews] leaves: the reviews it is
    about to print are recorded as seen, so a later run will not deliver
    them, also when printing them fails. It prints the reviews and returns
    when the star line of every review can be built; the only exception it
    can raise is the one of a star line that cannot: the [TypeError] of a
    rating that is not an integer, the [OverflowError] or [MemoryError] of
    one that is too large. *)
Theorem Cli_main_dry_run L app_id SLACK_WEBHOOK_URL days E s :
  app_id ≠ [] →
  let p := process_reviews app_id days E s in
  let o := Cli.main L (Some app_id) SLACK_WEBHOOK_URL days true E s in
  ∃ new,
    res p = Return new ∧
    filter is_post (trace o) = [] ∧
    final o = final p ∧
    (Forall (fun r => has_star_line E r = true) new →
     res o = Return (match new with [] => [] | _ => Cli.dry_run_lines new end)) ∧
    (∀ e, res o = Raise e →
       star_error (exn_cls e) = true ∧ ∃ r, r ∈ new ∧ has_star_line E r = false) ∧
    (new ≠ [] →
       ∃ ids lr, file (final o) = Some (JsonObject (Some ids) lr) ∧
                 ∀ r, r ∈ new → ∃ i, review_id r = Some i ∧ i ∈ ids).
Proof.
  intros Hid p o. subst p o. destruct app_id as [|c app_id]; [done|].
  destruct (process_reviews_summary (c :: app_id) days E s) as (new & Hr & Hp & _ & Hrec).
  exists new. unfold Cli.main, Cli.required. munfold. simpl.
  destruct (process_reviews (c :: app_id) days E s) as [rp sp tp].
  simpl in Hr, Hp, Hrec. subst rp.
  destruct new as [|n new]; simpl.
  { rewrite !filter_app, Hp. done. }
  destruct (print_reviews_spec (n :: new) E sp) as (Hf & Ht & Hret & Hraise).
  destruct (Cli.print_reviews (n :: new) E sp) as [[l|e] sf tf];
    simpl in Hf, Ht, Hret, Hraise; subst sf tf.
  - simpl. rewrite !app_nil_r, Hp. split_and!; [done..| |done|done].
    intros Hint. destruct (Hret Hint) as (l' & [= <-] & ->). done.
  - destruct (Hraise e eq_refl) as (Hc & Hbad). simpl.
    rewrite !app_nil_r, filter_app, Hp. simpl. split_and!; [done..| | |done].
    + intros Hint. by destruct (Hret Hint) as (l & Hl & _).
    + by intros e' [= <-].
Qed.

Lemma Cli_main_dry_run_witness :
  let p := process_reviews Sample.app_id 1 (Sample.E [Sample.item1; Sample.item2]) Sample.s1 in
  let o := Cli.main Sample2.L (Some Sample.app_id) None 1 true
             (Sample.E [Sample.item1; Sample.item2]) Sample.s1 in
  res p = Return [Sample.r2] ∧ res o = Return (Cli.dry_run_lines [Sample.r2]) ∧
  filter is_post (trace o) = [] ∧ final o = final p.
Proof.
  destruct (Cli_main_dry_run Sample2.L Sample.app_id None 1
              (Sample.E [Sample.item1; Sample.item2]) Sample.s1)
    as (new & Hp & Hposts & Hfin & Hret & _); [discriminate|].
  assert (new = [Sample.r2]) as ->.
  { assert (res (process_reviews Sample.app_id 1 (Sample.E [Sample.item1; Sample.item2])
                   Sample.s1) = Return [Sample.r2]) as H by (vm_compute; reflexivity).
    rewrite H in Hp. by injection Hp. }
  split_and!; [exact Hp| |exact Hposts|exact Hfin].
  apply Hret. repeat constructor.
Defined.

(** X24. A live run cannot tell an outage of the review source from a quiet
    day: when the fetch raises, the controller posts the status message
    "No new reviews found" to the channel, prints the same, and returns
    normally. *)
Theorem Cli_main_outage_reported_as_no_reviews L app_id w days E s e next_run :
  app_id ≠ [] → w ≠ [] →
  res (get_recent_reviews app_id days E s) = Raise e →
  Cli.get_next_check_time (utcoffset L (now_utc E)) (now_utc E) = Some next_run →
  ok_reply (webhook_reply E (posted s)) = true →
  let o := Cli.main L (Some app_id) (Some w) days false E s in
  res o = Return [lit "No new reviews found in the specified time period."] ∧
  filter is_post (trace o)
  = [HttpPost w (message_text (Cli.status_review L (now_utc E) next_run days))
       (lit "#app-reviews")] ∧
  filter is_store (trace o) = [] ∧ file (final o) = file s.
Proof.
  intros Hid Hw He Hnext Hok o. subst o.
  destruct app_id as [|c app_id]; [done|]. destruct w as [|c' w]; [done|].
  destruct (process_reviews_spec (c :: app_id) days E s) as (Hp & H).
  rewrite He in H. destruct H as (Hr & Hf & Hst).
  unfold Cli.main, Cli.required. munfold. simpl.
  destruct (process_reviews (c :: app_id) days E s) as [rp sp tp].
  simpl in Hr, Hf, Hst, Hp. subst rp sp. simpl. rewrite Hnext. simpl.
  destruct (send_slack_notification_accepted (c' :: w) (lit "#app-reviews")
              [Cli.status_review L (now_utc E) next_run days] E s)
    as (Hsr & Hsp & Hss & Hsf).
  { constructor; [apply status_review_int|constructor]. }
  { intros k Hk. simpl in Hk. assert (k = 0%nat) as -> by lia. by rewrite Nat.add_0_r. }
  destruct (send_slack_notification (c' :: w) _ (lit "#app-reviews") E s) as [rn sn tn].
  simpl in Hsr, Hsp, Hss, Hsf. subst rn. simpl.
  rewrite !app_nil_r, !filter_app, !filter_cons, Hp, Hst, Hsp, Hss. simpl. done.
Qed.

Lemma Cli_main_outage_reported_as_no_reviews_witness :
  let o := Cli.main Sample2.L (Some Sample.app_id) (Some Sample.webhook_url) 1 false
             Sample2.E_source_down Sample.s0 in
  res o = Return [lit "No new reviews found in the specified time period."] ∧
  filter is_post (trace o)
  = [HttpPost Sample.webhook_url
       (message_text (Cli.status_review Sample2.L (now_utc Sample2.E_source_down)
                        1704214800000000 1))
       (lit "#app-reviews")] ∧
  filter is_store (trace o) = [] ∧ file (final o) = file Sample.s0.
Proof.
  apply (Cli_main_outage_reported_as_no_reviews Sample2.L Sample.app_id Sample.webhook_url
           1 Sample2.E_source_down Sample.s0
           (Exn APIError (lit "Failed to fetch reviews from App Store Connect API"))
           1704214800000000).
  - discriminate.
  - discriminate.
  - vm_compute. reflexivity.
  - vm_compute. reflexivity.
  - reflexivity.
Defined.

(** X25. When a live run with new reviews fails, because the webhook URL is
    not set or because a delivery call is not accepted, the exception is a
    [ValueError] or a [SlackError], and by then the ids of all new reviews
    are in the state file: the reviews that were not delivered will not be
    returned by [process_reviews] again. *)
Theorem Cli_main_failure_after_recording L app_id SLACK_WEBHOOK_URL days E s new e :
  app_id ≠ [] →
  res (process_reviews app_id days E s) = Return new → new ≠ [] →
  let o := Cli.main L (Some app_id) SLACK_WEBHOOK_URL days false E s in
  res o = Raise e →
  (exn_cls e = ValueError ∨ exn_cls e = SlackError) ∧
  (length (filter is_post (trace o)) ≤ length new)%nat ∧
  ∃ ids lr, file (final o) = Some (JsonObject (Some ids) lr) ∧
            ∀ r, r ∈ new → ∃ i, review_id r = Some i ∧ i ∈ ids.
Proof.
  intros Hid Hnew Hne o. subst o. destruct app_id as [|c app_id]; [done|].
  destruct (process_reviews_summary (c :: app_id) days E s) as (new' & Hr & Hp & _ & Hrec).
  rewrite Hnew in Hr. injection Hr as <-. specialize (Hrec Hne).
  unfold Cli.main, Cli.required. munfold. simpl.
  destruct (process_reviews (c :: app_id) days E s) as [rp sp tp].
  simpl in Hnew, Hp, Hrec. subst rp.
  destruct new as [|n new]; [done|]. simpl.
  destruct SLACK_WEBHOOK_URL as [[|c' w]|]; simpl.
  1,3: intros [= <-]; rewrite !filter_app, Hp; simpl; split_and!; [by left|lia|done].
  destruct (send_slack_notification_run (c' :: w) (lit "#app-reviews") (n :: new) E sp)
    as (k & Hk & _ & Hposts & Hall & Hfin & Hres).
  destruct (send_slack_notification (c' :: w) (n :: new) (lit "#app-reviews") E sp)
    as [[[]|e'] sn tn]; simpl in *; [done|].
  intros [= <-]. destruct Hres as (Hcls & _). subst sn.
  rewrite !filter_app, Hp, Hposts. simpl. split_and!; [by right| |done].
  unfold attempts. rewrite !length_app, length_map, length_take. simpl. lia.
Qed.

Lemma Cli_main_failure_after_recording_witness :
  let E := Sample2.E_webhook_down [Sample.item1; Sample.item2] in
  let o := Cli.main Sample2.L (Some Sample.app_id) (Some Sample.webhook_url) 1 false
             E Sample.s1 in
  (exn_cls (Exn SlackError (lit "Failed to send notification: server_error")) = ValueError
   ∨ exn_cls (Exn SlackError (lit "Failed to send notification: server_error")) = SlackError) ∧
  (length (filter is_post (trace o)) ≤ length [Sample.r2])%nat ∧
  ∃ ids lr, file (final o) = Some (JsonObject (Some ids) lr) ∧
            ∀ r, r ∈ [Sample.r2] → ∃ i, review_id r = Some i ∧ i ∈ ids.
Proof.
  apply (Cli_main_failure_after_recording Sample2.L Sample.app_id (Some Sample.webhook_url)
           1 (Sample2.E_webhook_down [Sample.item1; Sample.item2]) Sample.s1).
  - discriminate.
  - vm_compute. reflexivity.
  - discriminate.
  - vm_compute. reflexivity.
Defined.

(** X26. A live run with new reviews, all with a star line that can be
    built, and a webhook that accepts every call posts each new review once,
    in the order [process_reviews] returned them, prints nothing and
    returns. *)
Theorem Cli_main_delivers_new_reviews L app_id w days E s new :
  app_id ≠ [] → w ≠ [] →
  res (process_reviews app_id days E s) = Return new → new ≠ [] →
  Forall (fun r => has_star_line E r = true) new →
  (∀ k, (k < length new)%nat → ok_reply (webhook_reply E (posted s + k)%nat) = true) →
  let o := Cli.main L (Some app_id) (Some w) days false E s in
  res o = Return [] ∧
  filter is_post (trace o) = attempts w (lit "#app-reviews") new ∧
  file (final o) = file (final (process_reviews app_id days E s)).
Proof.
  intros Hid Hw Hnew Hne Hint Hok o. subst o.
  destruct app_id as [|c app_id]; [done|]. destruct w as [|c' w]; [done|].
  destruct (process_reviews_summary (c :: app_id) days E s) as (new' & Hr & Hp & Hposted & _).
  rewrite Hnew in Hr. injection Hr as <-.
  unfold Cli.main, Cli.required. munfold. simpl.
  destruct (process_reviews (c :: app_id) days E s) as [rp sp tp].
  simpl in Hnew, Hp, Hposted. subst rp.
  destruct new as [|n new]; [done|]. simpl.
  destruct (send_slack_notification_accepted (c' :: w) (lit "#app-reviews") (n :: new) E sp)
    as (Hsr & Hsp & Hss & Hsf); [done|by rewrite Hposted|].
  destruct (send_slack_notification (c' :: w) (n :: new) (lit "#app-reviews") E sp)
    as [rn sn tn]. simpl in Hsr, Hsp, Hss, Hsf. subst rn. simpl.
  rewrite !filter_app, Hp, Hsp, filter_cons. simpl. by rewrite app_nil_r.
Qed.

Lemma Cli_main_delivers_new_reviews_witness :
  let E := Sample.E [Sample.item1; Sample.item2] in
  let o := Cli.main Sample2.L (Some Sample.app_id) (Some Sample.webhook_url) 1 false
             E Sample.s1 in
  res o = Return [] ∧
  filter is_post (trace o) = attempts Sample.webhook_url (lit "#app-reviews") [Sample.r2] ∧
  file (final o) = file (final (process_reviews Sample.app_id 1 E Sample.s1)).
Proof.
  apply (Cli_main_delivers_new_reviews Sample2.L Sample.app_id Sample.webhook_url 1
           (Sample.E [Sample.item1; Sample.item2]) Sample.s1 [Sample.r2]).
  - discriminate.
  - discriminate.
  - vm_compute. reflexivity.
  - discriminate.
  - repeat constructor.
  - intros k _. reflexivity.
Defined.
